(** * Ultimate-Scraper: the fallback cascade and the HTML cleaner

    A shallow embedding of [ultimate_scraper.py].

    - Python [str] values are modelled by [string]; one [ascii] stands for
      one code point, so the model covers text whose code points are below
      256 (Latin-1).
    - The third-party collaborators (BeautifulSoup's parser, httpx,
      cloudscraper, Playwright, Selenium, the file system, [json.dumps])
      are fields of the record [Env]; the code that the repository itself
      contains is translated function by function.
    - Calls to [logger] have no effect on any returned value and are left
      out; what the program does to the outside is recorded in [World]. *)

From Stdlib Require Import String Ascii List Arith Lia Bool.
From Stdlib Require Import Numbers.DecimalString Numbers.DecimalNat.
From Equations Require Import Equations.
Import ListNotations.
Open Scope string_scope.
Set Warnings "-register-all,-abstract-large-number".

(* ===================================================================== *)
(** ** Python strings *)
(* ===================================================================== *)

Module PyStr.

(** The line feed, ['\n']. *)
Definition nl : ascii := "010"%char.

(** [str.isspace] on one code point below 256: TAB..CR, FS..US and
    SPACE, NEL (0x85), NBSP (0xA0).  The regular-expression class [\s]
    on [str] patterns is the same set. *)
Definition isspace (c : ascii) : bool :=
  let n := nat_of_ascii c in
  (((9 <=? n) && (n <=? 13)) || ((28 <=? n) && (n <=? 32))
   || (n =? 133) || (n =? 160))%nat.

(** [s.lstrip()] *)
Fixpoint lstrip (s : string) : string :=
  match s with
  | EmptyString => EmptyString
  | String c r => if isspace c then lstrip r else s
  end.

(** [s.rstrip()] *)
Fixpoint rstrip (s : string) : string :=
  match s with
  | EmptyString => EmptyString
  | String c r =>
      match rstrip r with
      | EmptyString => if isspace c then EmptyString else String c EmptyString
      | r' => String c r'
      end
  end.

(** [s.strip()] *)
Definition strip (s : string) : string := rstrip (lstrip s).

(** [s.startswith(p)] *)
Definition startswith (s p : string) : bool := String.prefix p s.

(** [sep.join(parts)] *)
Fixpoint join (sep : string) (parts : list string) : string :=
  match parts with
  | [] => EmptyString
  | [p] => p
  | p :: rest => p ++ sep ++ join sep rest
  end.

(** The double quote, as a character and as a string. *)
Definition dquote : ascii := ascii_of_nat 34.
Definition DQ : string := String dquote EmptyString.

(** Truth value of a string: [bool(s)]. *)
Definition truthy (s : string) : bool :=
  match s with EmptyString => false | String _ _ => true end.

(** [s[:n]] *)
Definition slice_to (n : nat) (s : string) : string := String.substring 0 n s.

(** [str(n)] for a length, as an f-string renders it. *)
Definition str_of_nat (n : nat) : string :=
  NilEmpty.string_of_uint (Nat.to_uint n).

(** Every character of [s] is white space. *)
Fixpoint all_space (s : string) : bool :=
  match s with
  | EmptyString => true
  | String c r => isspace c && all_space r
  end.

End PyStr.
Import PyStr.

(* ===================================================================== *)
(** ** The regular expression of [clean_html] *)
(* ===================================================================== *)

Module Re.

(** Where a match of [\s*\n] that starts at the head of [s] ends: [\s*]
    is greedy and gives characters back one at a time, so the match ends
    after the last line feed of the white-space run that [s] starts
    with.  The result is the text after the match. *)
Fixpoint ws_last_nl (s : string) : option string :=
  match s with
  | EmptyString => None
  | String c r =>
      if isspace c then
        match ws_last_nl r with
        | Some r' => Some r'
        | None => if Ascii.eqb c nl then Some r else None
        end
      else None
  end.

Definition inspect {A} (a : A) : {b | a = b} := exist _ a eq_refl.

(** [re.sub(r'\n\s*\n', '\n\n', s)]: scanning from the left, each
    leftmost match is replaced and the scan goes on after it. *)
Equations? sub_blank_lines (s : string) : string by wf (String.length s) lt :=
  sub_blank_lines EmptyString := EmptyString;
  sub_blank_lines (String c r) with Ascii.eqb c nl := {
    | false := String c (sub_blank_lines r);
    | true with inspect (ws_last_nl r) := {
        | exist _ (Some r') _ := String nl (String nl (sub_blank_lines r'));
        | exist _ None _ := String c (sub_blank_lines r) } }.
Proof.
  all: simpl; try lia.
  clear - e. revert r' e.
  induction r as [|d r IH]; simpl; intros r' e; [discriminate|].
  destruct (isspace d); [|discriminate].
  destruct (ws_last_nl r) as [q|].
  - injection e as <-. specialize (IH _ eq_refl). lia.
  - destruct (Ascii.eqb d nl); [|discriminate]. injection e as <-. lia.
Qed.

End Re.
Import Re.

(* ===================================================================== *)
(** ** BeautifulSoup's tree *)
(* ===================================================================== *)

Module Bs4.

(** A page element: a tag with its attributes and contents, a text node,
    or a string that [get_text] does not report (comment, doctype,
    processing instruction).  [attrs] is the attribute dictionary of the
    tag, one pair for each key. *)
Inductive node : Type :=
| Tag (name : string) (attrs : list (string * string)) (contents : list node)
| NavigableString (text : string)
| Comment (text : string).

(** The [BeautifulSoup] object, given by its contents. *)
Definition soup : Type := list node.

Definition mem (x : string) (l : list string) : bool :=
  existsb (String.eqb x) l.

(** [for tag in soup.find_all(names): tag.decompose()]: every tag whose
    name is listed leaves the tree together with what it contains. *)
Fixpoint decompose_node (names : list string) (n : node) : list node :=
  match n with
  | Tag name attrs contents =>
      if mem name names then []
      else [Tag name attrs (flat_map (decompose_node names) contents)]
  | _ => [n]
  end.

Definition decompose_all (names : list string) (s : soup) : soup :=
  flat_map (decompose_node names) s.

(** The tags below (and including) a node, in document order. *)
Fixpoint tags_of (n : node) : list node :=
  match n with
  | Tag _ _ contents => n :: flat_map tags_of contents
  | _ => []
  end.

Definition descendant_tags (s : soup) : list node := flat_map tags_of s.

Definition attr (k : string) (attrs : list (string * string)) : option string :=
  match List.find (fun kv => String.eqb (fst kv) k) attrs with
  | Some kv => Some (snd kv)
  | None => None
  end.

Definition named (name : string) (n : node) : bool :=
  match n with
  | Tag nm _ _ => String.eqb nm name
  | _ => false
  end.

Definition named_with (name k v : string) (n : node) : bool :=
  match n with
  | Tag nm attrs _ =>
      String.eqb nm name
      && match attr k attrs with Some v' => String.eqb v' v | None => false end
  | _ => false
  end.

(** [soup.find(name)]: the first matching tag in document order. *)
Definition find (name : string) (s : soup) : option node :=
  List.find (named name) (descendant_tags s).

(** [soup.find(name, k=v)] *)
Definition find_with (name k v : string) (s : soup) : option node :=
  List.find (named_with name k v) (descendant_tags s).

(** [a or b] on the results of [find]; a [Tag] is always true. *)
Definition or_else {A} (a b : option A) : option A :=
  match a with Some _ => a | None => b end.

(** The text nodes below a node, in document order. *)
Fixpoint strings_of (n : node) : list string :=
  match n with
  | Tag _ _ contents => flat_map strings_of contents
  | NavigableString t => [t]
  | Comment _ => []
  end.

(** [x.get_text(separator=sep, strip=True)] on the strings below [x]:
    each one is stripped, the empty ones are dropped. *)
Definition text_of_strings (sep : string) (l : list string) : string :=
  join sep (filter truthy (map strip l)).

Definition get_text (sep : string) (n : node) : string :=
  text_of_strings sep (strings_of n).

Definition soup_get_text (sep : string) (s : soup) : string :=
  text_of_strings sep (flat_map strings_of s).

End Bs4.
Import Bs4.

(* ===================================================================== *)
(** ** Results, collaborators, and the state of a run *)
(* ===================================================================== *)

(** The dictionary that [scrape_url_orchestrator] returns.  Its keys are
    fixed; [error = None] stands for a dictionary without the key
    ["error"]. *)
Record result : Type := mk_result {
  url : string;
  content : option string;
  method : option string;
  beautified : bool;
  error : option string
}.

(** [result.update({"content": c, "method": m})] *)
Definition update_content (r : result) (c : string) (m : option string) : result :=
  {| url := url r; content := Some c; method := m;
     beautified := beautified r; error := error r |}.

(** [result["error"] = e] *)
Definition set_error (r : result) (e : string) : result :=
  {| url := url r; content := content r; method := method r;
     beautified := beautified r; error := Some e |}.

(** What a strategy function returns: the tuple [(content, method)]. *)
Definition outcome : Type := (option string * option string)%type.

(** The options object handed to a Selenium driver. *)
Record driver_options : Type := mk_options {
  arguments : list string;
  experimental : list (string * list string)
}.

(** The collaborators outside the repository.  A fetch that answers [None]
    stands for any exception raised by the library call.
    [selenium_installed] says that every import in the [try] block of
    [_ensure_selenium_dependencies] succeeds; [selenium_importable] says
    that [import selenium] itself does (it is read when one of the imports
    after it fails).  [path_exists p] is [Path(p).exists()]: the answer, or
    [None] when the call raises [OSError], as it does for a name that is
    too long or a directory that may not be searched. *)
Record Env : Type := mk_env {
  bs4_available : bool;
  parse : string -> option soup;
  httpx_get : string -> option string;
  cloudscraper_get : string -> option string;
  playwright_installed : bool;
  playwright_session : string -> option string;
  selenium_installed : bool;
  selenium_importable : bool;
  webdriver_manager_installed : bool;
  gecko_install : option string;
  chromedriver_install : option string;
  firefox_session : option string -> driver_options -> string -> option string;
  chrome_session : option string -> driver_options -> string -> option string;
  path_exists : string -> option bool;
  file_write_ok : string -> bool;
  json_dumps : result -> string
}.

(** The module-level names [playwright], [selenium] and
    [webdriver_manager].  They start as [None]; the [import] statements
    under [if __name__ == "__main__"] bind an installed package to the same
    name, which is the case [Package]. *)
Inductive pw_global := PwNone | PwFalse | PwSync | PwPackage.
Inductive sel_global := SelNone | SelFalse | SelDict | SelPackage.
Inductive wm_global := WmNone | WmFalse | WmDict (managers : bool) | WmPackage.

Inductive strategy := Fast | Playwright | Firefox | Chrome.

(** What a run does to the outside. *)
Inductive call : Type :=
| Enter (s : strategy)
| HttpxGet (u : string)
| CloudscraperGet (u : string)
| PlaywrightSession (u : string)
| GeckoInstall
| ChromedriverInstall
| FirefoxSession (exe : option string) (o : driver_options) (u : string)
| ChromeSession (exe : option string) (o : driver_options) (u : string).

Record World : Type := mk_world {
  calls : list call;
  g_playwright : pw_global;
  g_selenium : sel_global;
  g_webdriver_manager : wm_global;
  files : list (string * string);
  console : list string
}.

Definition initial_world : World :=
  {| calls := []; g_playwright := PwNone; g_selenium := SelNone;
     g_webdriver_manager := WmNone; files := []; console := [] |}.

(** The strategy functions entered so far, oldest first. *)
Definition entered (w : World) : list strategy :=
  flat_map (fun c => match c with Enter s => [s] | _ => [] end) (calls w).

(* ===================================================================== *)
(** ** A monad for state and exceptions *)
(* ===================================================================== *)

(** The exceptions of a run: a misuse of a module-level name, a failure
    inside a collaborator, a failure of the file system.  A missing
    package is read from [Env] where the code catches [ImportError]. *)
Inductive exn := TypeError | ProviderError | OSError.

Inductive res (A : Type) : Type :=
| Ok (a : A)
| Raise (e : exn).
Arguments Ok {A} a.
Arguments Raise {A} e.

Definition M (A : Type) : Type := World -> res A * World.

Definition ret {A} (a : A) : M A := fun w => (Ok a, w).

Definition raise {A} (e : exn) : M A := fun w => (Raise e, w).

Definition bind {A B} (m : M A) (k : A -> M B) : M B :=
  fun w => match m w with
           | (Ok a, w') => k a w'
           | (Raise e, w') => (Raise e, w')
           end.

(** [try: m  except Exception: h] *)
Definition try_except {A} (m : M A) (h : M A) : M A :=
  fun w => match m w with
           | (Ok a, w') => (Ok a, w')
           | (Raise _, w') => h w'
           end.

Declare Scope monad_scope.
Delimit Scope monad_scope with monad.
Notation "x <- m ;; k" := (bind m (fun x => k))
  (at level 61, m at next level, right associativity) : monad_scope.
Notation "m ;; k" := (bind m (fun _ => k))
  (at level 61, right associativity) : monad_scope.
Notation "'try' m 'except' h" := (try_except m h)
  (at level 60, m at level 61, h at level 61) : monad_scope.
Open Scope monad_scope.

Definition record (c : call) : M unit :=
  fun w => (Ok tt, {| calls := calls w ++ [c]; g_playwright := g_playwright w;
                      g_selenium := g_selenium w;
                      g_webdriver_manager := g_webdriver_manager w;
                      files := files w; console := console w |}).

Definition get_playwright : M pw_global := fun w => (Ok (g_playwright w), w).
Definition get_selenium : M sel_global := fun w => (Ok (g_selenium w), w).
Definition get_webdriver_manager : M wm_global :=
  fun w => (Ok (g_webdriver_manager w), w).

Definition set_playwright (g : pw_global) : M unit :=
  fun w => (Ok tt, {| calls := calls w; g_playwright := g;
                      g_selenium := g_selenium w;
                      g_webdriver_manager := g_webdriver_manager w;
                      files := files w; console := console w |}).

Definition set_selenium (g : sel_global) : M unit :=
  fun w => (Ok tt, {| calls := calls w; g_playwright := g_playwright w;
                      g_selenium := g;
                      g_webdriver_manager := g_webdriver_manager w;
                      files := files w; console := console w |}).

Definition set_webdriver_manager (g : wm_global) : M unit :=
  fun w => (Ok tt, {| calls := calls w; g_playwright := g_playwright w;
                      g_selenium := g_selenium w;
                      g_webdriver_manager := g;
                      files := files w; console := console w |}).

(** [print(s)].  [console] holds the arguments of the calls of [print], in
    order; the lines of the logger, which go to the same stream, are not
    among them, and a stream that refuses the text is not modelled. *)
Definition print (s : string) : M unit :=
  fun w => (Ok tt, {| calls := calls w; g_playwright := g_playwright w;
                      g_selenium := g_selenium w;
                      g_webdriver_manager := g_webdriver_manager w;
                      files := files w; console := console w ++ [s] |}).

(** An answer of a collaborator: [None] is an exception. *)
Definition answer {A} (c : call) (a : option A) : M A :=
  record c ;; match a with Some x => ret x | None => raise ProviderError end.

(* ===================================================================== *)
(** ** The program *)
(* ===================================================================== *)

Definition NL : string := String nl EmptyString.

Definition tags_to_remove : list string :=
  ["script"; "style"; "nav"; "footer"; "aside"; "header"; "form"; "iframe";
   "button"; "input"; "textarea"; "select"; "option"; "noscript"; "link";
   "meta"].

(** [soup.find('main') or soup.find('article')
     or soup.find('div', role='main') or soup.find('body')] *)
Definition select_root (s : soup) : option node :=
  or_else (find "main" s)
    (or_else (find "article" s)
       (or_else (find_with "div" "role" "main" s) (find "body" s))).

(** The text that [clean_html] draws from a parsed document. *)
Definition extract_text (s : soup) : string :=
  let s' := decompose_all tags_to_remove s in
  match select_root s' with
  | Some main_content => get_text NL main_content
  | None => soup_get_text NL s'
  end.

(** The two lines that follow [get_text] in either branch. *)
Definition collapse (text_content : string) : string :=
  strip (sub_blank_lines text_content).

(** [profile_path and Path(profile_path).exists()]: the test is not made
    for [None] and for the empty string; when it is made it can raise. *)
Definition profile_usable (exists_ : string -> option bool)
    (p : option string) : M bool :=
  match p with
  | Some path =>
      if truthy path
      then match exists_ path with
           | Some b => ret b
           | None => raise OSError
           end
      else ret false
  | None => ret false
  end.

(** [bool(content)] for [content] a string or [None]. *)
Definition truthy_opt (c : option string) : bool :=
  match c with Some s => truthy s | None => false end.

Section Program.

Variable env : Env.

Definition clean_html (html_content : string) : string :=
  if negb (truthy html_content) then EmptyString
  else if negb (bs4_available env) then html_content
  else
    match parse env html_content with
    | Some s => collapse (extract_text s)
    | None => html_content
    end.

(** [clean_html(c) if beautify else c] *)
Definition normalize (beautify : bool) (c : string) : string :=
  if beautify then clean_html c else c.

Definition fast_scrape (u : string) (beautify : bool) : M outcome :=
  record (Enter Fast) ;;
  r <- (try (text <- answer (HttpxGet u) (httpx_get env u) ;;
             ret (Some text, Some "httpx"))
        except (try (text <- answer (CloudscraperGet u) (cloudscraper_get env u) ;;
                     ret (Some text, Some "cloudscraper"))
                except ret (None, None))) ;;
  match r with
  | (Some c, method_used) =>
      if truthy c then ret (Some (normalize beautify c), method_used)
      else ret (None, None)
  | (None, _) => ret (None, None)
  end.

(** The part of [playwright_scrape] after the import check.  A usable
    profile only changes what is logged, but the test for it is made, inside
    the [try]. *)
Definition playwright_body (u : string) (profile_path : option string)
    (beautify : bool) : M outcome :=
  try (g <- get_playwright ;;
       match g with
       | PwSync =>
           profile_usable (path_exists env) profile_path ;;
           content_html <- answer (PlaywrightSession u) (playwright_session env u) ;;
           ret (Some (normalize beautify content_html), Some "playwright")
       | _ => raise TypeError
       end)
  except ret (None, None).

Definition playwright_scrape (u : string) (profile_path : option string)
    (beautify : bool) : M outcome :=
  record (Enter Playwright) ;;
  g <- get_playwright ;;
  match g with
  | PwNone =>
      if playwright_installed env
      then set_playwright PwSync ;; playwright_body u profile_path beautify
      else set_playwright PwFalse ;; ret (None, None)
  | PwFalse => ret (None, None)
  | _ => playwright_body u profile_path beautify
  end.

Definition _ensure_selenium_dependencies : M bool :=
  g <- get_selenium ;;
  match g with
  | SelNone =>
      set_selenium SelFalse ;;
      set_webdriver_manager WmFalse ;;
      if selenium_installed env || selenium_importable env
      then (* [import selenium] binds the package to the global name *)
           set_selenium SelPackage ;;
           if selenium_installed env
           then set_selenium SelDict ;;
                set_webdriver_manager (WmDict (webdriver_manager_installed env)) ;;
                ret true
           else ret false
      else ret false
  | SelFalse => ret false
  | _ => ret true
  end.

(** [selenium["..."]]: only the dictionary can be subscripted. *)
Definition selenium_item : M unit :=
  g <- get_selenium ;;
  match g with SelDict => ret tt | _ => raise TypeError end.

(** The [service_args] block: the driver path when the manager provides
    one. *)
Definition service_executable (c : call) (install : option string)
  : M (option string) :=
  g <- get_webdriver_manager ;;
  match g with
  | WmDict true => try (p <- answer c install ;; ret (Some p)) except ret None
  | WmDict false => ret None
  | _ => raise TypeError
  end.

Definition firefox_options (profile_path : option string)
  : M driver_options :=
  usable <- profile_usable (path_exists env) profile_path ;;
  ret {| arguments :=
           ["--headless"; "--window-size=1920,1080"]
           ++ (if usable
               then match profile_path with
                    | Some p => ["-profile"; p]
                    | None => []
                    end
               else []);
         experimental := [] |}.

Definition firefox_scrape (u : string) (profile_path : option string)
    (beautify : bool) : M outcome :=
  record (Enter Firefox) ;;
  ok <- _ensure_selenium_dependencies ;;
  if negb ok then ret (None, None)
  else
    try (selenium_item ;;
         options <- firefox_options profile_path ;;
         exe <- service_executable GeckoInstall (gecko_install env) ;;
         content_html <- answer (FirefoxSession exe options u)
                                (firefox_session env exe options u) ;;
         ret (Some (normalize beautify content_html), Some "firefox"))
    except ret (None, None).

Definition chrome_options (profile_path : option string)
  : M driver_options :=
  usable <- profile_usable (path_exists env) profile_path ;;
  ret {| arguments :=
           ["--headless=new"; "--no-sandbox"; "--disable-dev-shm-usage";
            "--disable-gpu"; "--window-size=1920,1080"; "--log-level=3"]
           ++ (if usable
               then match profile_path with
                    | Some p => ["--user-data-dir=" ++ p]
                    | None => []
                    end
               else []);
         experimental := [("excludeSwitches", ["enable-logging"])] |}.

Definition chrome_scrape (u : string) (profile_path : option string)
    (beautify : bool) : M outcome :=
  record (Enter Chrome) ;;
  ok <- _ensure_selenium_dependencies ;;
  if negb ok then ret (None, None)
  else
    try (selenium_item ;;
         options <- chrome_options profile_path ;;
         exe <- service_executable ChromedriverInstall (chromedriver_install env) ;;
         content_html <- answer (ChromeSession exe options u)
                                (chrome_session env exe options u) ;;
         ret (Some (normalize beautify content_html), Some "chrome"))
    except ret (None, None).

(** The [for] loop of the orchestrator over [scrape_attempts] and the
    three lines after it. *)
Fixpoint run_attempts (scrape_attempts : list (string * M outcome))
    (r : result) : M result :=
  match scrape_attempts with
  | [] => ret (set_error r "All scraping methods failed")
  | (method_name, scrape_func) :: rest =>
      o <- (try (cm <- scrape_func ;; ret (Some cm)) except ret None) ;;
      match o with
      | Some (Some c, method_used) => ret (update_content r c method_used)
      | Some (None, _) => run_attempts rest r
      | None => run_attempts rest r
      end
  end.

Definition scrape_attempts (u : string) (beautify : bool)
    (playwright_profile firefox_profile chrome_profile : option string)
  : list (string * M outcome) :=
  [("fast", fast_scrape u beautify);
   ("playwright", playwright_scrape u playwright_profile beautify);
   ("firefox", firefox_scrape u firefox_profile beautify);
   ("chrome", chrome_scrape u chrome_profile beautify)].

(** [not url or not (url.startswith('http://') or url.startswith('https://'))] *)
Definition invalid_url (u : string) : bool :=
  negb (truthy u) || negb (startswith u "http://" || startswith u "https://").

Definition scrape_url_orchestrator (u : string) (beautify : bool)
    (playwright_profile firefox_profile chrome_profile : option string)
  : M result :=
  if invalid_url u
  then ret {| url := u; content := None; method := None;
              beautified := beautify; error := Some "Invalid URL schema" |}
  else
    run_attempts
      (scrape_attempts u beautify playwright_profile firefox_profile chrome_profile)
      {| url := u; content := None; method := None;
         beautified := beautify; error := None |}.

(** *** [main] *)

Inductive output_format := Txt | Json.

Record args : Type := mk_args {
  a_url : string;
  a_output_file : option string;
  a_output_format : output_format;
  a_raw : bool;
  a_playwright_profile : option string;
  a_firefox_profile : option string;
  a_chrome_profile : option string
}.

(** [x or d] for [x] a string or [None]. *)
Definition str_or (x : option string) (d : string) : string :=
  match x with
  | Some s => if truthy s then s else d
  | None => d
  end.

(** [result.get('error', d)] *)
Definition get_error (r : result) (d : string) : string :=
  match error r with Some e => e | None => d end.

Definition render (a : args) (r : result) : string :=
  match a_output_format a with
  | Json => json_dumps env r
  | Txt =>
      if truthy_opt (content r)
      then match content r with Some c => c | None => EmptyString end
      else "Error: Failed to scrape URL: " ++ a_url a ++ NL
           ++ "Method attempted last: " ++ str_or (method r) "N/A" ++ NL
           ++ "Error details: " ++ get_error r "Unknown error"
  end.

Definition max_console_len : nat := 10000.

(** The lines printed around the output, and the notice
    [f"\n... [Output truncated for console display, full content length:
    {len(output_content)} characters]"]. *)
Definition output_header : string := NL ++ "--- Output ---".
Definition output_footer : string := "--- End Output ---".
Definition truncation_notice (output_content : string) : string :=
  NL ++ "... [Output truncated for console display, full content length: "
  ++ str_of_nat (String.length output_content) ++ " characters]".

(** The [else] branch of [if args.output_file]. *)
Definition print_to_console (output_content : string) : M unit :=
  print output_header ;;
  (if (max_console_len <? String.length output_content)%nat
   then print (slice_to max_console_len output_content) ;;
        print (truncation_notice output_content)
   else print output_content) ;;
  print output_footer.

(** [with open(path, 'w') as f: f.write(text)], with the parent directory
    made first. *)
Definition write_file (path text : string) : M unit :=
  fun w =>
    if file_write_ok env path
    then (Ok tt, {| calls := calls w; g_playwright := g_playwright w;
                    g_selenium := g_selenium w;
                    g_webdriver_manager := g_webdriver_manager w;
                    files := files w ++ [(path, text)]; console := console w |})
    else (Raise OSError, w).

Definition handle_output (a : args) (output_content : string) : M unit :=
  if truthy_opt (a_output_file a)
  then
    match a_output_file a with
    | Some path =>
        try write_file path output_content
        except (print (NL ++ "--- Output (Error writing to file, fallback to Console) ---") ;;
                print output_content ;;
                print output_footer)
    | None => ret tt
    end
  else print_to_console output_content.

(** [main], from the parsed arguments to the status given to
    [sys.exit]. *)
Definition main (a : args) : M nat :=
  let beautify := negb (a_raw a) && bs4_available env in
  r <- scrape_url_orchestrator (a_url a) beautify (a_playwright_profile a)
         (a_firefox_profile a) (a_chrome_profile a) ;;
  handle_output a (render a r) ;;
  match content r with
  | None => ret 1
  | Some _ => ret 0
  end.

End Program.

(* ===================================================================== *)
(** ** Runs of the cascade *)
(* ===================================================================== *)

(** An attempt that the loop of the orchestrator passes over: the call
    raised, or it returned no content. *)
Definition fails (o : res outcome) : Prop :=
  match o with
  | Ok (Some _, _) => False
  | Ok (None, _) => True
  | Raise _ => True
  end.

(** [all_fail l w w']: run one after the other from [w], the attempts of [l]
    all fail and leave the world [w']. *)
Inductive all_fail : list (string * M outcome) -> World -> World -> Prop :=
| all_fail_nil : forall w, all_fail [] w w
| all_fail_cons : forall name f l w w1 w2,
    fails (fst (f w)) -> snd (f w) = w1 -> all_fail l w1 w2 ->
    all_fail ((name, f) :: l) w w2.

(** The shape of what a strategy function hands back: content and method
    name together, or neither. *)
Definition paired (o : res outcome) : Prop :=
  match o with
  | Ok (Some _, Some _) => True
  | Ok (None, None) => True
  | Ok _ => False
  | Raise _ => True
  end.

(** The co-presence invariant of a result. *)
Definition co_present (r : result) : Prop :=
  (content r <> None <-> method r <> None)
  /\ (method r <> None <-> error r = None).

(** The strategy entered by each element of [scrape_attempts]. *)
Definition cascade_order : list strategy := [Fast; Playwright; Firefox; Chrome].

(** Each attempt of the list enters the strategy named beside it. *)
Definition enters (s : strategy) (a : string * M outcome) : Prop :=
  forall w, entered (snd (snd a w)) = (entered w ++ [s])%list.

(** The scheme of a URL as RFC 3986 has it: the text before the first
    colon.  This follows the wording of the specification, not the code. *)
Fixpoint spec_scheme (u : string) : option string :=
  match u with
  | EmptyString => None
  | String c r =>
      if Ascii.eqb c ":"%char then Some EmptyString
      else match spec_scheme r with
           | Some s => Some (String c s)
           | None => None
           end
  end.

(** White space without a line feed. *)
Fixpoint horizontal (s : string) : bool :=
  match s with
  | EmptyString => true
  | String c r => isspace c && negb (Ascii.eqb c nl) && horizontal r
  end.

(** A line that is empty or holds white space only. *)
Definition blank_line (l : string) : bool := horizontal l.

(** The lines of a text, split at line feeds. *)
Fixpoint lines_from (cur : string) (s : string) : list string :=
  match s with
  | EmptyString => [cur]
  | String c r =>
      if Ascii.eqb c nl then cur :: lines_from EmptyString r
      else lines_from (cur ++ String c EmptyString) r
  end.

Definition lines (s : string) : list string := lines_from EmptyString s.

(** The number of blank lines strictly inside a text (its first and last
    lines are not counted). *)
Definition inner_blank_lines (s : string) : nat :=
  List.length (filter blank_line (removelast (tl (lines s)))).

(* ===================================================================== *)
(** ** A reader of simple markup, and environments to run the program in *)
(* ===================================================================== *)

Module Sample.

(** The theorems below hold for every parser.  To run the program on
    concrete pages, [read_markup] reads the plain part of HTML: start tags
    with double-quoted attributes without spaces, end tags, text, and the
    character references [&amp;] [&lt;] [&gt;] [&quot;]; no comments,
    doctype or [<] inside [script] and [style].  On such input it builds
    the tree that [BeautifulSoup(markup, 'html.parser')] builds: the names
    of tags and attributes are put in lower case, adjacent text and
    references form one string, an end tag closes the nearest open tag of
    its name, open tags are closed at the end of input, and text below
    [script], [style], [template], [rt] or [rp] is of a kind that
    [get_text] does not report. *)
Inductive token : Type :=
| TStart (name : string) (attrs : list (string * string))
| TEnd (name : string)
| TData (text : string).

Fixpoint unescape_from (skip : nat) (s : string) : string :=
  match s with
  | EmptyString => EmptyString
  | String c r =>
      match skip with
      | S k => unescape_from k r
      | O =>
          if String.prefix "&amp;" s then String "&"%char (unescape_from 4 r)
          else if String.prefix "&lt;" s then String "<"%char (unescape_from 3 r)
          else if String.prefix "&gt;" s then String ">"%char (unescape_from 3 r)
          else if String.prefix "&quot;" s then String dquote (unescape_from 5 r)
          else String c (unescape_from 0 r)
      end
  end.

Definition unescape (s : string) : string := unescape_from 0 s.

(** [s.lower()] on the letters A to Z. *)
Definition lower_char (c : ascii) : ascii :=
  let n := nat_of_ascii c in
  if ((65 <=? n) && (n <=? 90))%nat then ascii_of_nat (n + 32) else c.

Fixpoint lower (s : string) : string :=
  match s with
  | EmptyString => EmptyString
  | String c r => String (lower_char c) (lower r)
  end.

Fixpoint split_from (sep : ascii) (cur : string) (s : string) : list string :=
  match s with
  | EmptyString => [cur]
  | String c r =>
      if Ascii.eqb c sep then cur :: split_from sep EmptyString r
      else split_from sep (cur ++ String c EmptyString) r
  end.

Definition split (sep : ascii) (s : string) : list string :=
  split_from sep EmptyString s.

(** [k="v"] *)
Definition read_attr (s : string) : list (string * string) :=
  match split "="%char s with
  | [k; qv] =>
      [(lower k, unescape (String.substring 1 (String.length qv - 2) qv))]
  | _ => []
  end.

Definition read_tag (body : string) : token :=
  match body with
  | String "/"%char name => TEnd (lower name)
  | _ =>
      match filter truthy (split " "%char body) with
      | name :: attrs => TStart (lower name) (flat_map read_attr attrs)
      | [] => TData EmptyString
      end
  end.

Definition data_token (acc : string) : list token :=
  if truthy acc then [TData (unescape acc)] else [].

Fixpoint lex (in_tag : bool) (acc : string) (s : string) : list token :=
  match s with
  | EmptyString => if in_tag then [] else data_token acc
  | String c r =>
      if in_tag then
        if Ascii.eqb c ">"%char then read_tag acc :: lex false EmptyString r
        else lex true (acc ++ String c EmptyString) r
      else
        if Ascii.eqb c "<"%char then data_token acc ++ lex true EmptyString r
        else lex false (acc ++ String c EmptyString) r
  end.

(** An open tag: its name and attributes, and the nodes read before it at
    the level of its parent, newest first. *)
Definition frame : Type := (string * list (string * string) * list node)%type.

Definition close_frame (f : frame) (cur : list node) : list node :=
  match f with
  | (name, attrs, before) => Tag name attrs (rev cur) :: before
  end.

Fixpoint close_to (name : string) (stack : list frame) (cur : list node)
  : list frame * list node :=
  match stack with
  | [] => ([], cur)
  | f :: rest =>
      if String.eqb (fst (fst f)) name then (rest, close_frame f cur)
      else close_to name rest (close_frame f cur)
  end.

Fixpoint close_all (stack : list frame) (cur : list node) : list node :=
  match stack with
  | [] => cur
  | f :: rest => close_all rest (close_frame f cur)
  end.

Definition void_elements : list string :=
  ["area"; "base"; "br"; "col"; "embed"; "hr"; "img"; "input"; "link";
   "meta"; "param"; "source"; "track"; "wbr"].

(** The tags whose text gets a string class of its own. *)
Definition string_containers : list string :=
  ["script"; "style"; "template"; "rt"; "rp"].

Definition text_node (stack : list frame) (t : string) : node :=
  if existsb (fun f => mem (fst (fst f)) string_containers) stack
  then Comment t
  else NavigableString t.

Fixpoint build (ts : list token) (stack : list frame) (cur : list node) : soup :=
  match ts with
  | [] => rev (close_all stack cur)
  | TData t :: r => build r stack (text_node stack t :: cur)
  | TStart name attrs :: r =>
      if mem name void_elements then build r stack (Tag name attrs [] :: cur)
      else build r ((name, attrs, cur) :: stack) []
  | TEnd name :: r =>
      if existsb (fun f => String.eqb (fst (fst f)) name) stack
      then let (stack', cur') := close_to name stack cur in build r stack' cur'
      else build r stack cur
  end.

Definition read_markup (s : string) : soup := build (lex false EmptyString s) [] [].

(** An environment with every library installed, in which each fetch
    answers as given; only the profile directory [/profiles/ok] exists,
    and the test for a path of more than 255 characters raises (its name
    is too long for the file system). *)
Definition env_of (httpx cloudscraper playwright firefox chrome : option string)
  : Env :=
  {| bs4_available := true;
     parse := fun s => Some (read_markup s);
     httpx_get := fun _ => httpx;
     cloudscraper_get := fun _ => cloudscraper;
     playwright_installed := true;
     playwright_session := fun _ => playwright;
     selenium_installed := true;
     selenium_importable := true;
     webdriver_manager_installed := true;
     gecko_install := Some "/drivers/geckodriver";
     chromedriver_install := Some "/drivers/chromedriver";
     firefox_session := fun _ _ _ => firefox;
     chrome_session := fun _ _ _ => chrome;
     path_exists := fun p =>
       if (255 <? String.length p)%nat then None
       else Some (String.eqb p "/profiles/ok");
     file_write_ok := fun _ => true;
     json_dumps := fun r =>
       "{" ++ DQ ++ "url" ++ DQ ++ ": " ++ DQ ++ url r ++ DQ ++ "}" |}.

(** Nothing can be fetched. *)
Definition env_down : Env := env_of None None None None None.

Definition page_main : string :=
  "<html><body><main>Hello</main></body></html>".

Definition tree_main : soup :=
  [Tag "html" [] [Tag "body" [] [Tag "main" [] [NavigableString "Hello"]]]].

(** A page with every kind of root, the [main] tag last, and noise inside
    and outside it. *)
Definition page_priority : string :=
  "<html><body><nav>menu</nav><article>A</article><div role=" ++ DQ ++ "main"
  ++ DQ ++ ">D</div><main>M<script>x()</script><button>ok</button></main>"
  ++ "<footer>f</footer></body></html>".

Definition tree_priority : soup :=
  [Tag "html" []
     [Tag "body" []
        [Tag "nav" [] [NavigableString "menu"];
         Tag "article" [] [NavigableString "A"];
         Tag "div" [("role", "main")] [NavigableString "D"];
         Tag "main" [] [NavigableString "M";
                        Tag "script" [] [Comment "x()"];
                        Tag "button" [] [NavigableString "ok"]];
         Tag "footer" [] [NavigableString "f"]]]].

(** The same without [main]; then without [article]; then with a [div]
    whose role is not [main]. *)
Definition tree_article : soup :=
  [Tag "html" []
     [Tag "body" []
        [Tag "div" [("role", "main")] [NavigableString "D"];
         Tag "article" [] [NavigableString "A"; Tag "style" [] [NavigableString "s"]];
         Tag "p" [] [NavigableString "P"]]]].

Definition tree_role : soup :=
  [Tag "html" []
     [Tag "body" []
        [Tag "div" [("role", "banner")] [NavigableString "B"];
         Tag "p" [] [NavigableString "P"];
         Tag "div" [("class", "c"); ("role", "main")]
           [NavigableString "D"; Tag "button" [] [NavigableString "ok"]]]]].

Definition tree_body : soup :=
  [Tag "html" []
     [Tag "head" [] [Tag "meta" [] []; Tag "title" [] [NavigableString "T"]];
      Tag "body" []
        [Tag "header" [] [NavigableString "h"];
         Tag "div" [("role", "banner")] [NavigableString "text"];
         Tag "form" [] [Tag "input" [] []; NavigableString "send"];
         Tag "aside" [] [NavigableString "a"]]]].

Definition tree_bare : soup :=
  [NavigableString " plain "; Comment "c";
   Tag "p" [] [NavigableString "text"];
   Tag "iframe" [] [NavigableString "i"]].

End Sample.

(* ===================================================================== *)
(** ** Words of the specification about the cleaner *)
(* ===================================================================== *)

(** [t] is the first element of [l] for which [p] holds. *)
Definition first_in {A : Type} (p : A -> bool) (l : list A) (t : A) : Prop :=
  exists pre post,
    l = (pre ++ t :: post)%list /\ p t = true
    /\ forall m, In m pre -> p m = false.

(** A place in a document: among the nodes at the top, or among the
    contents of a tag, at any depth. *)
Inductive place : Type :=
| Here (before after : list node)
| Below (before : list node) (name : string) (attrs : list (string * string))
        (inner : place) (after : list node).

(** The document with the nodes [l] put at the place. *)
Fixpoint put (c : place) (l : list node) : soup :=
  match c with
  | Here before after => (before ++ l ++ after)%list
  | Below before name attrs inner after =>
      (before ++ Tag name attrs (put inner l) :: after)%list
  end.

(* ===================================================================== *)
(** ** The rest of the program: the script block, and what runs leave *)
(* ===================================================================== *)

(** The block under [if __name__ == "__main__"] before the call of
    [main]: each [import] that succeeds binds the package to the
    module-level name of the same spelling; one that fails only logs a
    hint. *)
Definition import_hints (env : Env) : M unit :=
  (if playwright_installed env then set_playwright PwPackage else ret tt) ;;
  (if selenium_installed env || selenium_importable env
   then set_selenium SelPackage else ret tt) ;;
  (if webdriver_manager_installed env
   then set_webdriver_manager WmPackage else ret tt).

(** The program run as a script. *)
Definition script (env : Env) (a : args) : M nat :=
  import_hints env ;; main env a.

(** The calls that reach a browser or a driver manager. *)
Definition browser_call (c : call) : bool :=
  match c with
  | PlaywrightSession _ | FirefoxSession _ _ _ | ChromeSession _ _ _
  | GeckoInstall | ChromedriverInstall => true
  | Enter _ | HttpxGet _ | CloudscraperGet _ => false
  end.

(** The module-level names cannot give a browser: the name holds the
    package or [False], or it holds [None] and the package is missing. *)
Definition no_browser (env : Env) (w : World) : Prop :=
  (g_playwright w = PwPackage \/ g_playwright w = PwFalse
   \/ (g_playwright w = PwNone /\ playwright_installed env = false))
  /\ (g_selenium w = SelPackage \/ g_selenium w = SelFalse
      \/ (g_selenium w = SelNone /\ selenium_installed env = false)).

(** Selenium can be used: it is installed and not looked for yet, or it has
    been imported by [_ensure_selenium_dependencies]. *)
Definition selenium_ready (env : Env) (w : World) : Prop :=
  (g_selenium w = SelNone /\ selenium_installed env = true)
  \/ (g_selenium w = SelDict /\ exists m, g_webdriver_manager w = WmDict m).

(** The method names that the strategy functions assign. *)
Definition method_names : list string :=
  ["httpx"; "cloudscraper"; "playwright"; "firefox"; "chrome"].

(** [c] is what one of the collaborators answered for [u]. *)
Definition answered (env : Env) (u c : string) : Prop :=
  httpx_get env u = Some c
  \/ cloudscraper_get env u = Some c
  \/ playwright_session env u = Some c
  \/ (exists exe o, firefox_session env exe o u = Some c)
  \/ (exists exe o, chrome_session env exe o u = Some c).

(** The characters of a text that are not white space, in order. *)
Fixpoint visible (s : string) : string :=
  match s with
  | EmptyString => EmptyString
  | String c r => if isspace c then visible r else String c (visible r)
  end.

(** The message of [main] for the text format when [result["content"]] is
    false. *)
Definition failure_text (u : string) (r : result) : string :=
  "Error: Failed to scrape URL: " ++ u ++ NL
  ++ "Method attempted last: " ++ str_or (method r) "N/A" ++ NL
  ++ "Error details: " ++ get_error r "Unknown error".


(* ===================================================================== *)
(** ** [create_firefox_profile.py] *)
(* ===================================================================== *)

Module FirefoxProfile.

(** What [subprocess.check_output(["which", name])] does: it returns the
    bytes printed, raises [CalledProcessError] when [which] exits with an
    error, or raises something else (no [which] on the machine). *)
Inductive which_result : Type :=
| Output (bytes : string)
| CalledProcessError
| OtherError.

(** The machine the script runs on.  [path_join] is [os.path.join], whose
    separator depends on the system; [launch] stands for [Popen] and
    answers the text of the exception when the process cannot be started
    (the [wait] that follows ends when the browser is closed). *)
Record Host : Type := mk_host {
  system : string;
  environ : string -> option string;
  path_join : list string -> string;
  os_path_exists : string -> bool;
  getlogin : option string;
  which : string -> which_result;
  script_dir : string;
  makedirs_ok : string -> bool;
  launch : list string -> option string
}.

(** [os.environ.get(k, d)] *)
Definition environ_get (h : Host) (k d : string) : string :=
  match environ h k with Some v => v | None => d end.

(** [for path in possible_paths: if os.path.exists(path): return path] *)
Definition first_existing (h : Host) (possible_paths : list string)
  : option string :=
  List.find (os_path_exists h) possible_paths.

Definition windows_paths (h : Host) : list string :=
  [path_join h [environ_get h "PROGRAMFILES" "C:\Program Files";
                "Mozilla Firefox"; "firefox.exe"];
   path_join h [environ_get h "PROGRAMFILES(X86)" "C:\Program Files (x86)";
                "Mozilla Firefox"; "firefox.exe"]].

Definition darwin_paths (login : string) : list string :=
  ["/Applications/Firefox.app/Contents/MacOS/firefox";
   "/Users/" ++ login ++ "/Applications/Firefox.app/Contents/MacOS/firefox"].

(** [get_firefox_binary()]: the path found, [None], or an exception. *)
Definition get_firefox_binary (h : Host) : res (option string) :=
  if String.eqb (system h) "Windows" then
    Ok (first_existing h (windows_paths h))
  else if String.eqb (system h) "Darwin" then
    match getlogin h with
    | Some login => Ok (first_existing h (darwin_paths login))
    | None => Raise OSError
    end
  else if String.eqb (system h) "Linux" then
    match which h "firefox" with
    | Output bytes => Ok (Some (strip bytes))
    | CalledProcessError =>
        match which h "firefox-esr" with
        | Output bytes => Ok (Some (strip bytes))
        | CalledProcessError => Ok None
        | OtherError => Raise OSError
        end
    | OtherError => Raise OSError
    end
  else Ok None.

(** What a run of the script leaves: the directories made, the commands
    handed to [Popen], the arguments of the calls of [print].  A console
    that refuses the text and an interrupt while the script waits for the
    browser to be closed are outside the model. *)
Record Trace : Type := mk_trace {
  made : list string;
  launched : list (list string);
  printed : list string
}.

Definition profile_directory (h : Host) : string :=
  path_join h [script_dir h; "Firefox-Profile"].

Definition firefox_command (firefox_bin dir : string) : list string :=
  [firefox_bin; "--new-instance"; "--profile"; dir; "--no-remote";
   "https://www.google.com"].

Definition msg_setting_up (dir : string) : string :=
  "Setting up Firefox profile directory: " ++ dir.
Definition msg_created (dir : string) : string :=
  "Created profile directory at: " ++ dir.
Definition msg_exists (dir : string) : string :=
  "Profile directory already exists at: " ++ dir.
Definition msg_not_found : string :=
  "Could not find Firefox installation. Please make sure Firefox is installed.".
Definition msg_running : string :=
  "Firefox is running. Please close the browser when you're finished...".
Definition msgs_closed (bin dir : string) : list string :=
  [NL ++ "Firefox closed. Profile has been saved.";
   "Profile location: " ++ dir;
   NL ++ "To reuse this profile, launch Firefox with:";
   "  " ++ bin ++ " --profile " ++ DQ ++ dir ++ DQ].
Definition msg_error (e : string) : string :=
  "Error during profile setup: " ++ e.

(** The first part of [setup_firefox_profile()]: the directory is made
    when it is not there. *)
Definition ensure_directory (h : Host) (dir : string) : res unit * Trace :=
  if os_path_exists h dir
  then (Ok tt, {| made := []; launched := [];
                  printed := [msg_setting_up dir; msg_exists dir] |})
  else if makedirs_ok h dir
  then (Ok tt, {| made := [dir]; launched := [];
                  printed := [msg_setting_up dir; msg_created dir] |})
  else (Raise OSError, {| made := []; launched := [];
                          printed := [msg_setting_up dir] |}).

Definition say (t : Trace) (lines : list string) : Trace :=
  {| made := made t; launched := launched t;
     printed := (printed t ++ lines)%list |}.

Definition run (t : Trace) (cmd : list string) : Trace :=
  {| made := made t; launched := (launched t ++ [cmd])%list;
     printed := printed t |}.

(** [setup_firefox_profile()] *)
Definition setup_firefox_profile (h : Host) : res unit * Trace :=
  let dir := profile_directory h in
  match ensure_directory h dir with
  | (Raise e, t) => (Raise e, t)
  | (Ok _, t) =>
      match get_firefox_binary h with
      | Raise e => (Raise e, t)
      | Ok None => (Ok tt, say t [msg_not_found])
      | Ok (Some firefox_bin) =>
          if negb (truthy firefox_bin) then (Ok tt, say t [msg_not_found])
          else
            let cmd := firefox_command firefox_bin dir in
            match launch h cmd with
            | None =>
                (Ok tt, say (run t cmd)
                          (msg_running :: msgs_closed firefox_bin dir))
            | Some e => (Ok tt, say (run t cmd) [msg_error e])
            end
      end
  end.

End FirefoxProfile.

(* ===================================================================== *)
(** ** Strings: white space, trimming *)
(* ===================================================================== *)

Lemma isspace_nl : isspace nl = true.
Proof. reflexivity. Qed.

Lemma nonspace_not_nl c : isspace c = false -> Ascii.eqb c nl = false.
Proof.
  intros H. destruct (Ascii.eqb c nl) eqn:E; [|reflexivity].
  apply Ascii.eqb_eq in E. subst c. rewrite isspace_nl in H. discriminate.
Qed.

Lemma app_empty_r (s : string) : s ++ EmptyString = s.
Proof. induction s as [|c s IH]; simpl; [reflexivity | now rewrite IH]. Qed.

Lemma app_assoc_str (a b c : string) : (a ++ b) ++ c = a ++ (b ++ c).
Proof. induction a as [|x a IH]; simpl; [reflexivity | now rewrite IH]. Qed.

Lemma all_space_app a b : all_space (a ++ b) = all_space a && all_space b.
Proof.
  induction a as [|c a IH]; simpl; [reflexivity|].
  rewrite IH. now rewrite andb_assoc.
Qed.

Lemma horizontal_all_space h : horizontal h = true -> all_space h = true.
Proof.
  induction h as [|c h IH]; simpl; [reflexivity|].
  intros H. apply andb_prop in H as [H1 H2]. apply andb_prop in H1 as [H1 _].
  rewrite H1, (IH H2). reflexivity.
Qed.

Lemma rstrip_all_space s : all_space s = true -> rstrip s = EmptyString.
Proof.
  induction s as [|c s IH]; simpl; [reflexivity|].
  intros H. apply andb_prop in H as [Hc Hs].
  rewrite (IH Hs), Hc. reflexivity.
Qed.

Lemma rstrip_empty_all_space s : rstrip s = EmptyString -> all_space s = true.
Proof.
  induction s as [|c s IH]; simpl; [reflexivity|].
  destruct (rstrip s) eqn:E; [|discriminate].
  destruct (isspace c); [|discriminate].
  intros _. now rewrite IH.
Qed.

Lemma rstrip_cons c s :
  all_space s = false -> rstrip (String c s) = String c (rstrip s).
Proof.
  intros H. simpl. destruct (rstrip s) eqn:E; [|reflexivity].
  apply rstrip_empty_all_space in E. congruence.
Qed.

Lemma rstrip_cons_space c s :
  isspace c = false -> all_space s = true ->
  rstrip (String c s) = String c EmptyString.
Proof.
  intros Hc Hs. simpl. rewrite (rstrip_all_space _ Hs), Hc. reflexivity.
Qed.

Lemma lstrip_all_space s : all_space s = true -> lstrip s = EmptyString.
Proof.
  induction s as [|c s IH]; simpl; [reflexivity|].
  intros H. apply andb_prop in H as [Hc Hs]. rewrite Hc. auto.
Qed.

Lemma lstrip_idem s : lstrip (lstrip s) = lstrip s.
Proof.
  induction s as [|c s IH]; simpl; [reflexivity|].
  destruct (isspace c) eqn:E; [exact IH|]. simpl. now rewrite E.
Qed.

Lemma rstrip_idem s : rstrip (rstrip s) = rstrip s.
Proof.
  induction s as [|c s IH]; [reflexivity|].
  destruct (all_space s) eqn:Hs.
  - destruct (isspace c) eqn:Hc.
    + rewrite (rstrip_all_space (String c s)); [reflexivity|].
      simpl. now rewrite Hc, Hs.
    + rewrite (rstrip_cons_space _ _ Hc Hs). simpl. now rewrite Hc.
  - rewrite (rstrip_cons _ _ Hs).
    assert (all_space (rstrip s) = false) as Hr.
    { destruct (all_space (rstrip s)) eqn:E; [|reflexivity].
      apply rstrip_all_space in E. rewrite IH in E.
      apply rstrip_empty_all_space in E. congruence. }
    rewrite (rstrip_cons _ _ Hr). now rewrite IH.
Qed.

Lemma all_space_lstrip s : all_space (lstrip s) = all_space s.
Proof.
  induction s as [|c s IH]; simpl; [reflexivity|].
  destruct (isspace c) eqn:E; simpl; [exact IH | now rewrite E].
Qed.

(** Trimming the right end leaves the left end as it is. *)
Lemma lstrip_rstrip s : lstrip (rstrip s) = rstrip (lstrip s).
Proof.
  induction s as [|c s IH]; [reflexivity|].
  destruct (all_space s) eqn:Hs.
  - destruct (isspace c) eqn:Hc.
    + rewrite (rstrip_all_space (String c s)) by (simpl; now rewrite Hc, Hs).
      simpl. rewrite Hc. rewrite (lstrip_all_space _ Hs). reflexivity.
    + rewrite (rstrip_cons_space _ _ Hc Hs). simpl lstrip. rewrite Hc.
      now rewrite (rstrip_cons_space _ _ Hc Hs).
  - rewrite (rstrip_cons _ _ Hs). simpl lstrip.
    destruct (isspace c) eqn:Hc; [exact IH|].
    now rewrite (rstrip_cons _ _ Hs).
Qed.

Lemma strip_idem s : strip (strip s) = strip s.
Proof.
  unfold strip. rewrite lstrip_rstrip, lstrip_idem. apply rstrip_idem.
Qed.

(* ===================================================================== *)
(** ** The blank-line substitution *)
(* ===================================================================== *)

Lemma string_length_ind (P : string -> Prop) :
  (forall s, (forall t, String.length t < String.length s -> P t) -> P s) ->
  forall s, P s.
Proof.
  intros H s.
  induction s as [s IH] using (well_founded_induction
    (Wf_nat.well_founded_ltof _ String.length)).
  apply H. exact IH.
Qed.

Lemma sub_blank_lines_cons c r :
  sub_blank_lines (String c r) =
  if Ascii.eqb c nl then
    match ws_last_nl r with
    | Some r' => String nl (String nl (sub_blank_lines r'))
    | None => String c (sub_blank_lines r)
    end
  else String c (sub_blank_lines r).
Proof.
  simp sub_blank_lines. destruct (Ascii.eqb c nl); simpl; [|reflexivity].
  destruct (ws_last_nl r); reflexivity.
Qed.

Lemma sub_blank_lines_nil : sub_blank_lines EmptyString = EmptyString.
Proof. now simp sub_blank_lines. Qed.

Lemma ws_last_nl_shorter r r' :
  ws_last_nl r = Some r' -> String.length r' < String.length r.
Proof.
  revert r'. induction r as [|d r IH]; simpl; intros r' e; [discriminate|].
  destruct (isspace d); [|discriminate].
  destruct (ws_last_nl r) as [q|].
  - injection e as <-. specialize (IH _ eq_refl). lia.
  - destruct (Ascii.eqb d nl); [|discriminate]. injection e as <-. lia.
Qed.

(** The match is the longest one: no line feed is left in the white space
    that follows it. *)
Lemma ws_last_nl_maximal r r' :
  ws_last_nl r = Some r' -> ws_last_nl r' = None.
Proof.
  revert r'. induction r as [|d r IH]; simpl; intros r' e; [discriminate|].
  destruct (isspace d); [|discriminate].
  destruct (ws_last_nl r) as [q|] eqn:E.
  - injection e as <-. now apply IH.
  - destruct (Ascii.eqb d nl); [|discriminate]. injection e as <-. exact E.
Qed.

Lemma ws_last_nl_lstrip r r' :
  ws_last_nl r = Some r' -> lstrip r' = lstrip r.
Proof.
  revert r'. induction r as [|d r IH]; simpl; intros r' e; [discriminate|].
  destruct (isspace d); [|discriminate].
  destruct (ws_last_nl r) as [q|] eqn:E.
  - injection e as <-. now apply IH.
  - destruct (Ascii.eqb d nl); [|discriminate]. now injection e as <-.
Qed.

Lemma ws_last_nl_all_space r r' :
  ws_last_nl r = Some r' -> all_space r' = all_space r.
Proof.
  revert r'. induction r as [|d r IH]; simpl; intros r' e; [discriminate|].
  destruct (isspace d); [|discriminate]. simpl.
  destruct (ws_last_nl r) as [q|] eqn:E.
  - injection e as <-. now apply IH.
  - destruct (Ascii.eqb d nl); [|discriminate]. now injection e as <-.
Qed.

(** A character that is not white space ends every match before it. *)
Lemma ws_last_nl_app_nonspace a c b :
  isspace c = false ->
  ws_last_nl (a ++ String c b) =
  option_map (fun r => r ++ String c b) (ws_last_nl a).
Proof.
  intros Hc. induction a as [|d a IH]; simpl.
  - now rewrite Hc.
  - destruct (isspace d); [|reflexivity]. rewrite IH.
    destruct (ws_last_nl a); simpl; [reflexivity|].
    destruct (Ascii.eqb d nl); reflexivity.
Qed.

(** A run of white space that ends in a line feed is matched up to that
    line feed when no later one can be reached. *)
Lemma ws_last_nl_run mid post :
  all_space mid = true -> ws_last_nl post = None ->
  ws_last_nl (mid ++ String nl post) = Some post.
Proof.
  intros Hm Hp. induction mid as [|d mid IH]; simpl.
  - rewrite Hp. reflexivity.
  - simpl in Hm. apply andb_prop in Hm as [Hd Hm].
    rewrite Hd, (IH Hm). reflexivity.
Qed.

Lemma ws_last_nl_rstrip r :
  all_space r = false ->
  ws_last_nl (rstrip r) = option_map rstrip (ws_last_nl r).
Proof.
  induction r as [|d q IH]; [discriminate|].
  intros H. simpl in H.
  destruct (isspace d) eqn:Hd.
  - simpl in H. rewrite (rstrip_cons _ _ H). simpl. rewrite Hd, (IH H).
    destruct (ws_last_nl q); simpl; [reflexivity|].
    destruct (Ascii.eqb d nl); reflexivity.
  - simpl. rewrite Hd. destruct (rstrip q); simpl; rewrite ?Hd; reflexivity.
Qed.

Lemma sub_blank_lines_head_kept r :
  ws_last_nl r = None -> ws_last_nl (sub_blank_lines r) = None.
Proof.
  induction r as [|d q IH]; [now rewrite sub_blank_lines_nil|].
  simpl. destruct (isspace d) eqn:Hd.
  - destruct (ws_last_nl q) eqn:E; [discriminate|].
    destruct (Ascii.eqb d nl) eqn:Hn; [discriminate|]. intros _.
    rewrite sub_blank_lines_cons, Hn. simpl. rewrite Hd, (IH eq_refl), Hn.
    reflexivity.
  - intros _. rewrite sub_blank_lines_cons, (nonspace_not_nl _ Hd).
    simpl. now rewrite Hd.
Qed.

(** Substituting twice is substituting once. *)
Lemma sub_blank_lines_idem s :
  sub_blank_lines (sub_blank_lines s) = sub_blank_lines s.
Proof.
  induction s as [s IH] using string_length_ind.
  destruct s as [|c r]; [now rewrite sub_blank_lines_nil|].
  rewrite (sub_blank_lines_cons c r).
  destruct (Ascii.eqb c nl) eqn:Hn.
  - apply Ascii.eqb_eq in Hn. subst c.
    destruct (ws_last_nl r) as [r'|] eqn:E.
    + rewrite sub_blank_lines_cons. rewrite Ascii.eqb_refl.
      simpl ws_last_nl.
      rewrite (sub_blank_lines_head_kept _ (ws_last_nl_maximal _ _ E)).
      rewrite IH; [reflexivity|]. apply ws_last_nl_shorter in E. simpl. lia.
    + rewrite sub_blank_lines_cons, Ascii.eqb_refl.
      rewrite (sub_blank_lines_head_kept _ E).
      rewrite IH; [reflexivity | simpl; lia].
  - rewrite sub_blank_lines_cons, Hn. rewrite IH; [reflexivity | simpl; lia].
Qed.

(** No match crosses a character that is not white space. *)
Lemma sub_blank_lines_split a c b :
  isspace c = false ->
  sub_blank_lines (a ++ String c b) =
  sub_blank_lines a ++ String c (sub_blank_lines b).
Proof.
  intros Hc. induction a as [a IH] using string_length_ind.
  destruct a as [|d a]; simpl.
  - rewrite sub_blank_lines_nil, sub_blank_lines_cons.
    now rewrite (nonspace_not_nl _ Hc).
  - rewrite !sub_blank_lines_cons.
    destruct (Ascii.eqb d nl).
    + rewrite (ws_last_nl_app_nonspace _ _ _ Hc).
      destruct (ws_last_nl a) as [r'|] eqn:E; simpl.
      * rewrite IH; [reflexivity|]. apply ws_last_nl_shorter in E. simpl. lia.
      * rewrite IH; [reflexivity | simpl; lia].
    + rewrite IH; [reflexivity | simpl; lia].
Qed.

(** White space without a line feed is copied. *)
Lemma sub_blank_lines_horizontal h z :
  horizontal h = true ->
  sub_blank_lines (h ++ z) = h ++ sub_blank_lines z.
Proof.
  induction h as [|c h IH]; simpl; [reflexivity|].
  intros H. apply andb_prop in H as [H1 H2]. apply andb_prop in H1 as [_ H1].
  rewrite sub_blank_lines_cons.
  destruct (Ascii.eqb c nl); [discriminate|]. now rewrite IH.
Qed.

(** A whole run of blank lines becomes two line feeds. *)
Lemma sub_blank_lines_run mid post :
  all_space mid = true -> ws_last_nl post = None ->
  sub_blank_lines (String nl (mid ++ String nl post)) =
  String nl (String nl (sub_blank_lines post)).
Proof.
  intros Hm Hp. rewrite sub_blank_lines_cons, Ascii.eqb_refl.
  now rewrite (ws_last_nl_run _ _ Hm Hp).
Qed.

Lemma all_space_sub_blank_lines s :
  all_space (sub_blank_lines s) = all_space s.
Proof.
  induction s as [s IH] using string_length_ind.
  destruct s as [|c r]; [now rewrite sub_blank_lines_nil|].
  rewrite sub_blank_lines_cons.
  destruct (Ascii.eqb c nl) eqn:Hn.
  - apply Ascii.eqb_eq in Hn. subst c.
    destruct (ws_last_nl r) as [r'|] eqn:E.
    + simpl. rewrite IH by (apply ws_last_nl_shorter in E; simpl; lia).
      now apply ws_last_nl_all_space.
    + simpl. rewrite IH by (simpl; lia). reflexivity.
  - simpl. rewrite IH by (simpl; lia). reflexivity.
Qed.

(** The substitution and trimming on the left commute. *)
Lemma sub_blank_lines_lstrip s :
  sub_blank_lines (lstrip s) = lstrip (sub_blank_lines s).
Proof.
  induction s as [s IH] using string_length_ind.
  destruct s as [|c r]; [now rewrite sub_blank_lines_nil|].
  rewrite (sub_blank_lines_cons c r). simpl lstrip at 1.
  destruct (isspace c) eqn:Hc.
  - destruct (Ascii.eqb c nl) eqn:Hn.
    + destruct (ws_last_nl r) as [r'|] eqn:E.
      * simpl. rewrite <- IH by (apply ws_last_nl_shorter in E; simpl; lia).
        now rewrite (ws_last_nl_lstrip _ _ E).
      * simpl. rewrite Hc. apply IH. simpl; lia.
    + simpl. rewrite Hc. apply IH. simpl; lia.
  - rewrite sub_blank_lines_cons, (nonspace_not_nl _ Hc). simpl.
    now rewrite Hc.
Qed.

(** The substitution and trimming on the right commute. *)
Lemma sub_blank_lines_rstrip s :
  sub_blank_lines (rstrip s) = rstrip (sub_blank_lines s).
Proof.
  induction s as [s IH] using string_length_ind.
  destruct (all_space s) eqn:Hs.
  { rewrite (rstrip_all_space _ Hs), sub_blank_lines_nil.
    rewrite rstrip_all_space; [reflexivity|].
    now rewrite all_space_sub_blank_lines. }
  destruct s as [|c r]; [discriminate|].
  rewrite (sub_blank_lines_cons c r).
  destruct (all_space r) eqn:Hr.
  - (* [c] is the last character that is not white space *)
    assert (isspace c = false) as Hc.
    { simpl in Hs. rewrite Hr, andb_true_r in Hs. exact Hs. }
    rewrite (rstrip_cons_space _ _ Hc Hr), (nonspace_not_nl _ Hc).
    rewrite sub_blank_lines_cons, (nonspace_not_nl _ Hc), sub_blank_lines_nil.
    rewrite rstrip_cons_space; auto.
    now rewrite all_space_sub_blank_lines.
  - rewrite (rstrip_cons _ _ Hr), sub_blank_lines_cons.
    rewrite (ws_last_nl_rstrip _ Hr).
    destruct (Ascii.eqb c nl) eqn:Hn.
    + destruct (ws_last_nl r) as [r'|] eqn:E; simpl option_map; cbv iota.
      * assert (all_space r' = false) as Hr'
          by (rewrite (ws_last_nl_all_space _ _ E); exact Hr).
        rewrite IH by (apply ws_last_nl_shorter in E; simpl; lia).
        rewrite !rstrip_cons; auto.
        -- now rewrite all_space_sub_blank_lines.
        -- simpl. now rewrite all_space_sub_blank_lines.
      * rewrite IH by (simpl; lia). rewrite rstrip_cons; auto.
        now rewrite all_space_sub_blank_lines.
    + rewrite IH by (simpl; lia). rewrite rstrip_cons; auto.
      now rewrite all_space_sub_blank_lines.
Qed.

Lemma sub_blank_lines_strip s :
  sub_blank_lines (strip s) = strip (sub_blank_lines s).
Proof.
  unfold strip. now rewrite sub_blank_lines_rstrip, sub_blank_lines_lstrip.
Qed.

(** The last two steps of [clean_html], done twice, give what they give
    when done once. *)
Lemma collapse_idem t : collapse (collapse t) = collapse t.
Proof.
  unfold collapse.
  now rewrite sub_blank_lines_strip, sub_blank_lines_idem, strip_idem.
Qed.

Lemma lstrip_app_nonspace a c b :
  isspace c = false ->
  lstrip (a ++ String c b) = lstrip (a ++ String c EmptyString) ++ b.
Proof.
  intros Hc. induction a as [|d a IH]; simpl.
  - now rewrite Hc.
  - destruct (isspace d); [exact IH|]. simpl. now rewrite app_assoc_str.
Qed.

Lemma rstrip_app a b :
  all_space b = false -> rstrip (a ++ b) = a ++ rstrip b.
Proof.
  intros Hb. induction a as [|d a IH]; [reflexivity|].
  simpl append. rewrite rstrip_cons; [now rewrite IH|].
  rewrite all_space_app, Hb. apply andb_false_r.
Qed.

(* ===================================================================== *)
(** ** The cleaner *)
(* ===================================================================== *)

(** What [clean_html] returns once the document is parsed. *)
Lemma clean_html_parsed env x s :
  truthy x = true -> bs4_available env = true -> parse env x = Some s ->
  clean_html env x = collapse (extract_text s).
Proof.
  intros Hx Hb Hp. unfold clean_html. now rewrite Hx, Hb, Hp.
Qed.

(** C6 (as amended).  The cleaner is idempotent on every input whose
    cleaned output, parsed again, has that same output as its extracted
    text -- the case of an output without markup or character references.
    Without a parser, or when parsing fails, the cleaner is the identity
    and the condition is not needed. *)
Theorem clean_html_idempotent_on_plain_output env x :
  (forall s, parse env (clean_html env x) = Some s ->
             extract_text s = clean_html env x) ->
  clean_html env (clean_html env x) = clean_html env x.
Proof.
  intros H. remember (clean_html env x) as c eqn:Hc.
  unfold clean_html in Hc.
  destruct (truthy x) eqn:Hx; simpl in Hc; [|now subst c].
  destruct (bs4_available env) eqn:Hb; simpl in Hc.
  - destruct (parse env x) as [s0|] eqn:Hp.
    + unfold clean_html. rewrite Hb. simpl.
      destruct (truthy c) eqn:Ht; simpl.
      * destruct (parse env c) as [s|] eqn:Hp'; [|reflexivity].
        rewrite (H s eq_refl). rewrite Hc. apply collapse_idem.
      * destruct c; [reflexivity | discriminate].
    + subst c. unfold clean_html. now rewrite Hx, Hb, Hp.
  - subst c. unfold clean_html. now rewrite Hx, Hb.
Qed.

Lemma clean_html_idempotent_on_plain_output_witness :
  clean_html Sample.env_down (clean_html Sample.env_down Sample.page_main)
  = clean_html Sample.env_down Sample.page_main.
Proof.
  apply clean_html_idempotent_on_plain_output.
  intros s H. vm_compute in H. injection H as <-. vm_compute. reflexivity.
Defined.

(** C6 (as stated) fails: a character reference in the cleaned text is
    decoded once more by the second pass. *)
Lemma clean_html_not_idempotent :
  let x := "<p>&amp;lt;</p>" in
  clean_html Sample.env_down x = "&lt;"
  /\ clean_html Sample.env_down (clean_html Sample.env_down x) = "<"
  /\ clean_html Sample.env_down (clean_html Sample.env_down x)
     <> clean_html Sample.env_down x.
Proof.
  vm_compute. repeat split. discriminate.
Qed.

(** C7 (as amended).  In the text that the cleaner extracts from the
    parsed document, a run of blank lines -- a line feed, white space,
    a line feed, with no further line feed in the white space around it --
    comes out as exactly one empty line at that place. *)
Theorem blank_run_in_text_collapsed env x s p c h mid post :
  truthy x = true -> bs4_available env = true -> parse env x = Some s ->
  extract_text s = p ++ String c (h ++ String nl (mid ++ String nl post)) ->
  isspace c = false -> horizontal h = true ->
  all_space mid = true ->
  ws_last_nl post = None -> all_space post = false ->
  clean_html env x =
    lstrip (sub_blank_lines p ++ String c EmptyString)
    ++ h ++ NL ++ NL ++ rstrip (sub_blank_lines post)
  /\ ws_last_nl (rstrip (sub_blank_lines post)) = None.
Proof.
  intros Hx Hb Hp Ht Hc Hh Hm Hpost Hvis.
  assert (all_space (sub_blank_lines post) = false) as Hvis'
    by now rewrite all_space_sub_blank_lines.
  split.
  - rewrite (clean_html_parsed _ _ _ Hx Hb Hp), Ht. unfold collapse, strip.
    rewrite (sub_blank_lines_split _ _ _ Hc).
    rewrite (sub_blank_lines_horizontal _ _ Hh).
    rewrite (sub_blank_lines_run _ _ Hm Hpost).
    rewrite (lstrip_app_nonspace _ _ _ Hc).
    rewrite rstrip_app.
    + f_equal. rewrite rstrip_app by (simpl; exact Hvis').
      f_equal. rewrite !rstrip_cons by (simpl; exact Hvis'). reflexivity.
    + rewrite all_space_app. simpl. rewrite Hvis'. apply andb_false_r.
  - rewrite (ws_last_nl_rstrip _ Hvis').
    now rewrite (sub_blank_lines_head_kept _ Hpost).
Qed.

Lemma blank_run_in_text_collapsed_witness :
  clean_html Sample.env_down
    ("<main>a" ++ NL ++ NL ++ NL ++ NL ++ "b</main>")
  = "a" ++ NL ++ NL ++ "b".
Proof.
  refine (proj1 (blank_run_in_text_collapsed Sample.env_down
            ("<main>a" ++ NL ++ NL ++ NL ++ NL ++ "b</main>")
            [Tag "main" [] [NavigableString ("a" ++ NL ++ NL ++ NL ++ NL ++ "b")]]
            EmptyString "a"%char EmptyString (NL ++ NL) "b"
            _ _ _ _ _ _ _ _ _)); vm_compute; reflexivity.
Defined.

(** C7 (as stated) fails: blank lines between two elements are white-space
    text nodes, which [get_text] drops, so none is left in the output. *)
Lemma blank_lines_between_elements_vanish :
  let x := "<main><p>a</p>" ++ NL ++ NL ++ NL ++ "<p>b</p></main>" in
  inner_blank_lines x = 2
  /\ clean_html Sample.env_down x = "a" ++ NL ++ "b"
  /\ inner_blank_lines (clean_html Sample.env_down x) = 0.
Proof.
  vm_compute. repeat split.
Qed.

(** Induction on a tree, with the property known for all contents. *)
Lemma node_induction (P : node -> Prop) :
  (forall name attrs contents,
      Forall P contents -> P (Tag name attrs contents)) ->
  (forall t, P (NavigableString t)) ->
  (forall t, P (Comment t)) ->
  forall n, P n.
Proof.
  intros Htag Hstr Hcom.
  fix IH 1. intros [name attrs contents | t | t].
  - apply Htag. induction contents as [|c cs IHcs]; constructor.
    + apply IH.
    + exact IHcs.
  - apply Hstr.
  - apply Hcom.
Qed.

(** After [decompose_all], no tag with a listed name is left anywhere. *)
Lemma decompose_node_clean names name n m :
  In name names ->
  In m (flat_map tags_of (decompose_node names n)) -> named name m = false.
Proof.
  intros Hin. revert m. induction n as [nm attrs cs IH | t | t] using node_induction;
    intros m Hm; simpl in Hm; try contradiction.
  destruct (mem nm names) eqn:Hmem; simpl in Hm; [contradiction|].
  rewrite app_nil_r in Hm. destruct Hm as [<- | Hm].
  - simpl. destruct (String.eqb nm name) eqn:E; [|reflexivity].
    apply String.eqb_eq in E. subst nm.
    unfold mem in Hmem. rewrite <- not_true_iff_false in Hmem.
    exfalso. apply Hmem. apply existsb_exists. exists name. split; [exact Hin|].
    apply String.eqb_refl.
  - apply in_flat_map in Hm as [k [Hk Hm]].
    apply in_flat_map in Hk as [c [Hc Hk]].
    rewrite Forall_forall in IH. apply (IH c Hc m).
    apply in_flat_map. exists k. split; assumption.
Qed.

Lemma decompose_all_clean names name s m :
  In name names ->
  In m (descendant_tags (decompose_all names s)) -> named name m = false.
Proof.
  intros Hin Hm. unfold descendant_tags, decompose_all in Hm.
  apply in_flat_map in Hm as [k [Hk Hm]].
  apply in_flat_map in Hk as [c [Hc Hk]].
  apply (decompose_node_clean names name c m Hin).
  apply in_flat_map. exists k. split; assumption.
Qed.

Lemma find_first_in {A : Type} (p : A -> bool) l t :
  first_in p l t -> List.find p l = Some t.
Proof.
  intros (pre & post & -> & Ht & Hpre).
  induction pre as [|m pre IH]; simpl.
  - now rewrite Ht.
  - rewrite (Hpre m) by now left. apply IH. intros k Hk. apply Hpre. now right.
Qed.

Lemma find_nowhere {A : Type} (p : A -> bool) l :
  (forall m, In m l -> p m = false) -> List.find p l = None.
Proof.
  induction l as [|m l IH]; intros H; simpl; [reflexivity|].
  rewrite (H m) by now left. apply IH. intros k Hk. apply H. now right.
Qed.

Lemma listed_noise noise :
  In noise ["script"; "style"; "nav"; "footer"; "aside"; "header"; "form";
            "iframe"; "button"; "input"; "textarea"; "select"; "option";
            "noscript"; "link"; "meta"] ->
  mem noise tags_to_remove = true /\ In noise tags_to_remove.
Proof.
  intros H. simpl in H.
  repeat (destruct H as [<- | H]; [split; [reflexivity | simpl; tauto]|]).
  contradiction.
Qed.

(** A listed tag leaves the document wherever it stands. *)
Lemma decompose_all_put names c noise attrs inside :
  mem noise names = true ->
  decompose_all names (put c [Tag noise attrs inside])
  = decompose_all names (put c []).
Proof.
  intros Hmem. unfold decompose_all.
  induction c as [before after | before name attrs' inner IH after]; simpl.
  - rewrite !flat_map_app. cbn [flat_map decompose_node]. now rewrite Hmem.
  - rewrite !flat_map_app. cbn [flat_map decompose_node].
    destruct (mem name names); [reflexivity|]. now rewrite IH.
Qed.

(** C8.  Once the document is parsed:
    - no tag named [script], [style], [nav], [footer], [aside], [header],
      [form], [iframe], [button], [input], [textarea], [select], [option],
      [noscript], [link] or [meta] is left anywhere in it, and such a tag,
      at the top or at any depth, has no effect on the extracted text;
    - the text is taken from the first [main] tag of the document, in
      document order; when there is none, from the first [article]; when
      there is none either, from the first [div] whose [role] is [main];
      then from the first [body]; and from the whole document when there
      is none of the four;
    - the page [<html><body><main>Hello</main></body></html>] gives
      [Hello], and pages that hold several kinds of root and noise give the
      text of the root of highest priority without the noise. *)
Theorem clean_html_root_priority env x s :
  truthy x = true -> bs4_available env = true -> parse env x = Some s ->
  let s' := decompose_all tags_to_remove s in
  let dt := descendant_tags s' in
  let noise_names :=
    ["script"; "style"; "nav"; "footer"; "aside"; "header"; "form";
     "iframe"; "button"; "input"; "textarea"; "select"; "option";
     "noscript"; "link"; "meta"] in
  (forall n name, In n dt -> In name noise_names -> named name n = false)
  /\ (forall c noise attrs inside, In noise noise_names ->
        extract_text (put c [Tag noise attrs inside]) = extract_text (put c []))
  /\ (forall t, first_in (named "main") dt t ->
        clean_html env x = collapse (get_text NL t))
  /\ ((forall m, In m dt -> named "main" m = false) ->
      forall t, first_in (named "article") dt t ->
        clean_html env x = collapse (get_text NL t))
  /\ ((forall m, In m dt -> named "main" m = false) ->
      (forall m, In m dt -> named "article" m = false) ->
      forall t, first_in (named_with "div" "role" "main") dt t ->
        clean_html env x = collapse (get_text NL t))
  /\ ((forall m, In m dt -> named "main" m = false) ->
      (forall m, In m dt -> named "article" m = false) ->
      (forall m, In m dt -> named_with "div" "role" "main" m = false) ->
      forall t, first_in (named "body") dt t ->
        clean_html env x = collapse (get_text NL t))
  /\ ((forall m, In m dt -> named "main" m = false) ->
      (forall m, In m dt -> named "article" m = false) ->
      (forall m, In m dt -> named_with "div" "role" "main" m = false) ->
      (forall m, In m dt -> named "body" m = false) ->
      clean_html env x = collapse (soup_get_text NL s'))
  /\ (s = Sample.tree_main -> clean_html env x = "Hello")
  /\ (s = Sample.tree_priority -> clean_html env x = "M")
  /\ (s = Sample.tree_article -> clean_html env x = "A")
  /\ (s = Sample.tree_role -> clean_html env x = "D")
  /\ (s = Sample.tree_body -> clean_html env x = "text")
  /\ (s = Sample.tree_bare -> clean_html env x = "plain" ++ NL ++ "text").
Proof.
  intros Hx Hb Hp s' dt noise_names.
  rewrite (clean_html_parsed _ _ _ Hx Hb Hp). unfold extract_text.
  fold s'. unfold select_root, find, find_with. fold dt.
  split; [|split].
  - intros n name Hn Hname. apply listed_noise in Hname as [_ Hname].
    eapply decompose_all_clean; eassumption.
  - intros c noise attrs inside Hnoise. apply listed_noise in Hnoise as [Hmem _].
    now rewrite (decompose_all_put _ c noise attrs inside Hmem).
  - repeat split.
    + intros t Ht. now rewrite (find_first_in _ _ _ Ht).
    + intros H1 t Ht.
      now rewrite (find_nowhere _ _ H1), (find_first_in _ _ _ Ht).
    + intros H1 H2 t Ht.
      now rewrite (find_nowhere _ _ H1), (find_nowhere _ _ H2),
        (find_first_in _ _ _ Ht).
    + intros H1 H2 H3 t Ht.
      now rewrite (find_nowhere _ _ H1), (find_nowhere _ _ H2),
        (find_nowhere _ _ H3), (find_first_in _ _ _ Ht).
    + intros H1 H2 H3 H4.
      now rewrite (find_nowhere _ _ H1), (find_nowhere _ _ H2),
        (find_nowhere _ _ H3), (find_nowhere _ _ H4).
    + intros Hs. unfold dt, s'. rewrite Hs. vm_compute. reflexivity.
    + intros Hs. unfold dt, s'. rewrite Hs. vm_compute. reflexivity.
    + intros Hs. unfold dt, s'. rewrite Hs. vm_compute. reflexivity.
    + intros Hs. unfold dt, s'. rewrite Hs. vm_compute. reflexivity.
    + intros Hs. unfold dt, s'. rewrite Hs. vm_compute. reflexivity.
    + intros Hs. unfold dt, s'. rewrite Hs. vm_compute. reflexivity.
Qed.

Lemma clean_html_root_priority_witness :
  parse Sample.env_down Sample.page_priority = Some Sample.tree_priority
  /\ clean_html Sample.env_down Sample.page_priority = "M".
Proof.
  split; [vm_compute; reflexivity|].
  refine (proj1 (proj2 (proj2 (proj2 (proj2 (proj2 (proj2 (proj2 (proj2
    (clean_html_root_priority Sample.env_down Sample.page_priority
       Sample.tree_priority _ _ _))))))))) _); vm_compute; reflexivity.
Defined.

Example main_before_article :
  clean_html Sample.env_down
    "<body><article>A</article><main>M</main><p>P</p></body>" = "M".
Proof. vm_compute. reflexivity. Qed.

Example role_main_before_body :
  clean_html Sample.env_down
    ("<body><p>P</p><div role=" ++ DQ ++ "main" ++ DQ ++ ">D</div></body>") = "D".
Proof. vm_compute. reflexivity. Qed.

Example noise_removed :
  clean_html Sample.env_down
    "<body><nav>menu</nav><p>text</p><script>x()</script><footer>f</footer></body>"
  = "text".
Proof. vm_compute. reflexivity. Qed.

(* ===================================================================== *)
(** ** The strategies *)
(* ===================================================================== *)

Ltac run_monad :=
  cbv beta iota zeta delta
    [bind try_except ret raise answer record
     get_playwright get_selenium get_webdriver_manager
     set_playwright set_selenium set_webdriver_manager
     profile_usable firefox_options chrome_options
     fst snd negb
     g_playwright g_selenium g_webdriver_manager calls files console] in *.

(** Case analysis on the innermost value that a [match] looks at. *)
Ltac split_cases :=
  repeat (match goal with
          | |- context [match ?x with _ => _ end] =>
              lazymatch x with
              | context [match _ with _ => _ end] => fail
              | _ => destruct x eqn:?
              end
          end; run_monad).

Lemma entered_record w c :
  entered (snd (record c w)) =
  (entered w ++ match c with Enter s => [s] | _ => [] end)%list.
Proof.
  unfold entered, record. simpl. rewrite flat_map_app. simpl.
  now rewrite app_nil_r.
Qed.

Ltac entered_calls :=
  unfold entered; simpl; rewrite ?flat_map_app; simpl;
  rewrite ?app_nil_r, <- ?app_assoc; simpl; rewrite ?app_nil_r; reflexivity.

Lemma fast_scrape_paired env u b w : paired (fst (fast_scrape env u b w)).
Proof. unfold fast_scrape. run_monad. split_cases; exact I. Qed.

Lemma playwright_scrape_paired env u p b w :
  paired (fst (playwright_scrape env u p b w)).
Proof.
  unfold playwright_scrape, playwright_body. run_monad. split_cases; exact I.
Qed.

Lemma firefox_scrape_paired env u p b w :
  paired (fst (firefox_scrape env u p b w)).
Proof.
  unfold firefox_scrape, _ensure_selenium_dependencies, selenium_item,
    service_executable.
  run_monad. split_cases; exact I.
Qed.

Lemma chrome_scrape_paired env u p b w :
  paired (fst (chrome_scrape env u p b w)).
Proof.
  unfold chrome_scrape, _ensure_selenium_dependencies, selenium_item,
    service_executable.
  run_monad. split_cases; exact I.
Qed.

Lemma fast_scrape_entered env u b w :
  entered (snd (fast_scrape env u b w)) = (entered w ++ [Fast])%list.
Proof. unfold fast_scrape. run_monad. split_cases; entered_calls. Qed.

Lemma playwright_scrape_entered env u p b w :
  entered (snd (playwright_scrape env u p b w)) = (entered w ++ [Playwright])%list.
Proof.
  unfold playwright_scrape, playwright_body. run_monad.
  split_cases; entered_calls.
Qed.

Lemma firefox_scrape_entered env u p b w :
  entered (snd (firefox_scrape env u p b w)) = (entered w ++ [Firefox])%list.
Proof.
  unfold firefox_scrape, _ensure_selenium_dependencies, selenium_item,
    service_executable.
  run_monad. split_cases; entered_calls.
Qed.

Lemma chrome_scrape_entered env u p b w :
  entered (snd (chrome_scrape env u p b w)) = (entered w ++ [Chrome])%list.
Proof.
  unfold chrome_scrape, _ensure_selenium_dependencies, selenium_item,
    service_executable.
  run_monad. split_cases; entered_calls.
Qed.

(* ===================================================================== *)
(** ** The cascade *)
(* ===================================================================== *)

(** The loop hands back a result whatever the attempts do. *)
Lemma run_attempts_returns l r w :
  exists r' w', run_attempts l r w = (Ok r', w').
Proof.
  revert w. induction l as [|[name f] l IH]; intros w; simpl.
  - eexists _, _. reflexivity.
  - run_monad. destruct (f w) as [[[[c|] m]|e] w1]; run_monad.
    + eexists _, _. reflexivity.
    + apply IH.
    + apply IH.
Qed.

(** When all attempts fail, the result carries the terminal error. *)
Lemma run_attempts_all_fail l r w w' :
  all_fail l w w' ->
  run_attempts l r w = (Ok (set_error r "All scraping methods failed"), w').
Proof.
  induction 1 as [w | name f l w w1 w2 Hf Hw _ IH]; simpl; [reflexivity|].
  run_monad. destruct (f w) as [[[[c|] m]|e] w0]; simpl in *; subst;
    try contradiction; exact IH.
Qed.

(** The first attempt that returns content ends the loop. *)
Lemma run_attempts_first_success pre name f post r w w1 w2 c m :
  all_fail pre w w1 -> f w1 = (Ok (Some c, m), w2) ->
  run_attempts (pre ++ (name, f) :: post) r w = (Ok (update_content r c m), w2).
Proof.
  intros Hpre Hf. induction Hpre as [w | n g l w w1 w3 Hg Hw _ IH]; simpl.
  - run_monad. rewrite Hf. reflexivity.
  - run_monad. destruct (g w) as [[[[c'|] m']|e] w0]; simpl in *; subst;
      try contradiction; apply IH; exact Hf.
Qed.

Lemma all_fail_entered ids l :
  Forall2 enters ids l ->
  forall w w', all_fail l w w' -> entered w' = (entered w ++ ids)%list.
Proof.
  induction 1 as [|s a ids l Ha _ IH]; intros w w' Hfail.
  - inversion Hfail; subst. now rewrite app_nil_r.
  - inversion Hfail as [|name f l' w0 w1 w2 Hf Hw Hrest]; subst.
    rewrite (IH _ _ Hrest). specialize (Ha w). simpl in Ha. rewrite Ha.
    now rewrite <- app_assoc.
Qed.

Lemma scrape_attempts_enter env u b pp fp cp :
  Forall2 enters cascade_order (scrape_attempts env u b pp fp cp).
Proof.
  unfold cascade_order, scrape_attempts.
  repeat constructor; intros w; simpl.
  - apply fast_scrape_entered.
  - apply playwright_scrape_entered.
  - apply firefox_scrape_entered.
  - apply chrome_scrape_entered.
Qed.

Lemma scrape_attempts_paired env u b pp fp cp :
  Forall (fun a => forall w, paired (fst (snd a w)))
         (scrape_attempts env u b pp fp cp).
Proof.
  unfold scrape_attempts. repeat constructor; intros w; simpl.
  - apply fast_scrape_paired.
  - apply playwright_scrape_paired.
  - apply firefox_scrape_paired.
  - apply chrome_scrape_paired.
Qed.

Lemma run_attempts_co_present l r w :
  Forall (fun a => forall w, paired (fst (snd a w))) l ->
  content r = None -> method r = None -> error r = None ->
  exists r' w', run_attempts l r w = (Ok r', w') /\ co_present r'.
Proof.
  intros Hl Hc Hm He. revert w.
  induction Hl as [|[name f] l Hf _ IH]; intros w; simpl.
  - eexists _, _. split; [reflexivity|].
    unfold co_present, set_error. simpl. rewrite Hc, Hm.
    repeat split; intros H; try congruence; discriminate.
  - run_monad. specialize (Hf w). simpl in Hf.
    destruct (f w) as [[[[c|] [m|]]|e] w1]; simpl in Hf; try contradiction;
      run_monad; try apply IH.
    eexists _, _. split; [reflexivity|].
    unfold co_present, update_content. simpl. rewrite He.
    repeat split; intros; congruence.
Qed.

(** C1.  Whatever the URL and whatever the collaborators answer, the
    orchestrator returns a result, and in it the content is present if and
    only if the method is present, if and only if the error is absent. *)
Theorem orchestrator_co_presence env u b pp fp cp w :
  exists r w',
    scrape_url_orchestrator env u b pp fp cp w = (Ok r, w') /\ co_present r.
Proof.
  unfold scrape_url_orchestrator. destruct (invalid_url u).
  - eexists _, _. split; [reflexivity|].
    unfold co_present. simpl. repeat split; intros; congruence.
  - apply run_attempts_co_present; [apply scrape_attempts_paired | | |];
      reflexivity.
Qed.

(** C2.  When the attempts before one all fail and that one returns
    content, the orchestrator returns with that content and the method
    name that came with it, in the world that the successful attempt left:
    the strategies entered during the run are those of the cascade up to
    the successful one, and no later one. *)
Theorem orchestrator_short_circuit env u b pp fp cp pre name f post w w1 w2 c m :
  invalid_url u = false ->
  scrape_attempts env u b pp fp cp = (pre ++ (name, f) :: post)%list ->
  all_fail pre w w1 ->
  f w1 = (Ok (Some c, m), w2) ->
  scrape_url_orchestrator env u b pp fp cp w
  = (Ok {| url := u; content := Some c; method := m;
           beautified := b; error := None |}, w2)
  /\ entered w2
     = (entered w ++ firstn (S (List.length pre)) cascade_order)%list.
Proof.
  intros Hu Hsplit Hpre Hf. split.
  - unfold scrape_url_orchestrator. rewrite Hu, Hsplit.
    now rewrite (run_attempts_first_success _ _ _ _ _ _ _ _ _ _ Hpre Hf).
  - pose proof (scrape_attempts_enter env u b pp fp cp) as Hent.
    rewrite Hsplit in Hent.
    apply Forall2_app_inv_r in Hent as (ids1 & ids2 & H1 & H2 & Horder).
    inversion H2 as [|s a ids3 l3 Hs H3]; subst.
    rewrite Horder.
    assert (List.length ids1 = List.length pre) as Hlen
      by (eapply Forall2_length; eassumption).
    replace (S (List.length pre)) with (List.length (ids1 ++ [s])%list)
      by (rewrite length_app; simpl; lia).
    replace (ids1 ++ s :: ids3)%list with ((ids1 ++ [s]) ++ ids3)%list
      by (now rewrite <- app_assoc).
    rewrite firstn_app, firstn_all, Nat.sub_diag, firstn_O, app_nil_r.
    rewrite app_assoc, <- (all_fail_entered _ _ H1 _ _ Hpre).
    specialize (Hs w1). simpl in Hs. rewrite Hf in Hs. exact Hs.
Qed.

Lemma orchestrator_short_circuit_witness :
  let env := Sample.env_of None None (Some Sample.page_main) None None in
  let u := "https://example.com" in
  exists w2,
    scrape_url_orchestrator env u true None None None initial_world
    = (Ok {| url := u; content := Some "Hello"; method := Some "playwright";
             beautified := true; error := None |}, w2)
    /\ entered w2 = [Fast; Playwright].
Proof.
  intros env u.
  exists (snd (playwright_scrape env u None true
                 (snd (fast_scrape env u true initial_world)))).
  apply (orchestrator_short_circuit env u true None None None
           [("fast", fast_scrape env u true)]
           "playwright" (playwright_scrape env u None true)
           [("firefox", firefox_scrape env u None true);
            ("chrome", chrome_scrape env u None true)]
           initial_world (snd (fast_scrape env u true initial_world))).
  - vm_compute. reflexivity.
  - reflexivity.
  - econstructor; [vm_compute; exact I | reflexivity | constructor].
  - vm_compute. reflexivity.
Defined.

(** C3.  When every attempt of the cascade fails, the orchestrator returns
    the error [All scraping methods failed] with no content and no method,
    after entering all four strategies in order. *)
Theorem orchestrator_all_failed env u b pp fp cp w w' :
  invalid_url u = false ->
  all_fail (scrape_attempts env u b pp fp cp) w w' ->
  scrape_url_orchestrator env u b pp fp cp w
  = (Ok {| url := u; content := None; method := None; beautified := b;
           error := Some "All scraping methods failed" |}, w')
  /\ entered w' = (entered w ++ cascade_order)%list.
Proof.
  intros Hu Hfail. split.
  - unfold scrape_url_orchestrator. rewrite Hu.
    now rewrite (run_attempts_all_fail _ _ _ _ Hfail).
  - apply (all_fail_entered _ _ (scrape_attempts_enter env u b pp fp cp)).
    exact Hfail.
Qed.

Lemma orchestrator_all_failed_witness :
  exists w',
    scrape_url_orchestrator Sample.env_down "https://example.com" true
      None None None initial_world
    = (Ok {| url := "https://example.com"; content := None; method := None;
             beautified := true;
             error := Some "All scraping methods failed" |}, w')
    /\ entered w' = [Fast; Playwright; Firefox; Chrome].
Proof.
  eexists.
  apply (orchestrator_all_failed Sample.env_down "https://example.com" true
           None None None initial_world).
  - vm_compute. reflexivity.
  - unfold scrape_attempts.
    repeat (econstructor; [vm_compute; exact I | reflexivity |]).
    constructor.
Defined.

Lemma prefix_app p s :
  String.prefix p s = true -> exists r, s = p ++ r.
Proof.
  revert s. induction p as [|a p IH]; intros s H.
  - exists s. reflexivity.
  - destruct s as [|b s]; simpl in H; [discriminate|].
    destruct (Ascii.ascii_dec a b) as [->|]; [|discriminate].
    destruct (IH _ H) as [r ->]. exists r. reflexivity.
Qed.

(** A URL that the orchestrator lets through has the scheme [http] or
    [https]. *)
Lemma valid_url_scheme u :
  invalid_url u = false ->
  spec_scheme u = Some "http" \/ spec_scheme u = Some "https".
Proof.
  unfold invalid_url, startswith. intros H.
  apply orb_false_elim in H as [_ H]. apply negb_false_iff in H.
  apply orb_prop in H as [H | H]; apply prefix_app in H as [r ->];
    [left | right]; reflexivity.
Qed.

(** C4.  A URL whose scheme is neither [http] nor [https] -- the empty
    string and a string without a scheme included -- is answered with the
    error [Invalid URL schema] and no content, and the world is left as it
    was: no strategy has been entered and no collaborator called. *)
Theorem orchestrator_rejects_other_schemes env u b pp fp cp w :
  spec_scheme u <> Some "http" -> spec_scheme u <> Some "https" ->
  scrape_url_orchestrator env u b pp fp cp w
  = (Ok {| url := u; content := None; method := None; beautified := b;
           error := Some "Invalid URL schema" |}, w).
Proof.
  intros H1 H2. unfold scrape_url_orchestrator.
  destruct (invalid_url u) eqn:E; [reflexivity|].
  destruct (valid_url_scheme _ E); contradiction.
Qed.

Lemma orchestrator_rejects_other_schemes_witness :
  scrape_url_orchestrator Sample.env_down "ftp://example.com" true
    None None None initial_world
  = (Ok {| url := "ftp://example.com"; content := None; method := None;
           beautified := true; error := Some "Invalid URL schema" |},
     initial_world).
Proof.
  apply orchestrator_rejects_other_schemes; vm_compute; discriminate.
Defined.

Example not_a_url_rejected env b w :
  scrape_url_orchestrator env "not-a-url" b None None None w
  = (Ok {| url := "not-a-url"; content := None; method := None;
           beautified := b; error := Some "Invalid URL schema" |}, w).
Proof. reflexivity. Qed.

Example empty_url_rejected env b w :
  scrape_url_orchestrator env EmptyString b None None None w
  = (Ok {| url := EmptyString; content := None; method := None;
           beautified := b; error := Some "Invalid URL schema" |}, w).
Proof. reflexivity. Qed.

(* ===================================================================== *)
(** ** The empty page *)
(* ===================================================================== *)

(** The orchestrator takes the empty string for content. *)
Lemma run_attempts_accepts_empty name f post r w w1 m :
  f w = (Ok (Some EmptyString, m), w1) ->
  run_attempts ((name, f) :: post) r w
  = (Ok (update_content r EmptyString m), w1).
Proof.
  intros Hf.
  apply (run_attempts_first_success [] name f post r w w w1 EmptyString m);
    [constructor | exact Hf].
Qed.

(** So does each browser strategy: an empty page source is returned as
    content. *)
Lemma playwright_scrape_empty_page env u w :
  g_playwright w = PwSync -> playwright_session env u = Some EmptyString ->
  fst (playwright_scrape env u None false w)
  = Ok (Some EmptyString, Some "playwright").
Proof.
  intros Hg Hs. unfold playwright_scrape, playwright_body. run_monad.
  rewrite Hg. run_monad. rewrite Hs. reflexivity.
Qed.

(** [fast_scrape] does not: an empty body makes it report failure. *)
Lemma fast_scrape_empty_body env u b w :
  httpx_get env u = Some EmptyString ->
  fst (fast_scrape env u b w) = Ok (None, None).
Proof.
  intros H. unfold fast_scrape. run_monad. rewrite H. reflexivity.
Qed.

(** C5 at the failing input.  The HTTP client answers with an empty body
    and no browser can fetch the page: [fast_scrape] reports failure, the
    cascade goes on through every strategy and [main] exits with status 1.
    When instead a browser returns the empty page, the run stops there
    with the empty string as content and [main] exits with status 0. *)
Theorem empty_body_rejected_by_fast_scrape :
  let u := "https://example.com" in
  let a := {| a_url := u; a_output_file := None; a_output_format := Txt;
              a_raw := true; a_playwright_profile := None;
              a_firefox_profile := None; a_chrome_profile := None |} in
  let env_http := Sample.env_of (Some EmptyString) None None None None in
  let env_browser := Sample.env_of None None (Some EmptyString) None None in
  fst (fast_scrape env_http u false initial_world) = Ok (None, None)
  /\ entered (snd (main env_http a initial_world))
     = [Fast; Playwright; Firefox; Chrome]
  /\ fst (main env_http a initial_world) = Ok 1
  /\ fst (scrape_url_orchestrator env_browser u false None None None initial_world)
     = Ok {| url := u; content := Some EmptyString;
             method := Some "playwright"; beautified := false; error := None |}
  /\ entered (snd (main env_browser a initial_world)) = [Fast; Playwright]
  /\ fst (main env_browser a initial_world) = Ok 0.
Proof.
  vm_compute. repeat split.
Qed.

(* ===================================================================== *)
(** ** Profiles *)
(* ===================================================================== *)

Lemma profile_unusable env p :
  p = None \/ (exists path, p = Some path /\ path_exists env path = Some false) ->
  profile_usable (path_exists env) p = ret false.
Proof.
  intros [-> | (path & -> & H)]; simpl; [reflexivity|].
  rewrite H. destruct (truthy path); reflexivity.
Qed.

(** X22.  With a profile path that is not given, or for which the test
    [Path(profile_path).exists()] answers [False], each browser strategy
    does exactly what it does without a profile: same returned value, same
    calls with the same driver options, same final state. *)
Theorem missing_profile_is_no_profile env u p b w :
  p = None \/ (exists path, p = Some path /\ path_exists env path = Some false) ->
  firefox_scrape env u p b w = firefox_scrape env u None b w
  /\ chrome_scrape env u p b w = chrome_scrape env u None b w
  /\ playwright_scrape env u p b w = playwright_scrape env u None b w.
Proof.
  intros H. apply profile_unusable in H.
  assert (firefox_options env p = firefox_options env None) as Hf
    by (unfold firefox_options; now rewrite H).
  assert (chrome_options env p = chrome_options env None) as Hc
    by (unfold chrome_options; now rewrite H).
  unfold firefox_scrape, chrome_scrape, playwright_scrape, playwright_body.
  rewrite Hf, Hc, H.
  repeat split.
Qed.

Lemma missing_profile_is_no_profile_witness :
  let env := Sample.env_of None None None (Some Sample.page_main) None in
  let u := "https://example.com" in
  firefox_scrape env u (Some "/profiles/gone") true initial_world
  = firefox_scrape env u None true initial_world.
Proof.
  intros env u.
  apply (missing_profile_is_no_profile env u (Some "/profiles/gone") true
           initial_world).
  right. exists "/profiles/gone". split; [reflexivity | vm_compute; reflexivity].
Defined.

(** When the test itself raises, the strategy is over before a browser is
    started. *)
Lemma profile_test_raises env u path b w :
  truthy path = true -> path_exists env path = None ->
  (g_selenium w = SelDict ->
   firefox_scrape env u (Some path) b w
   = (Ok (None, None), snd (record (Enter Firefox) w))
   /\ chrome_scrape env u (Some path) b w
      = (Ok (None, None), snd (record (Enter Chrome) w)))
  /\ (g_playwright w = PwSync ->
      playwright_scrape env u (Some path) b w
      = (Ok (None, None), snd (record (Enter Playwright) w))).
Proof.
  intros Ht He. destruct w as [cs pw sel wm fs co]. simpl. split.
  - intros ->.
    unfold firefox_scrape, chrome_scrape, _ensure_selenium_dependencies,
      selenium_item.
    run_monad. rewrite Ht, He. split; reflexivity.
  - intros ->. unfold playwright_scrape, playwright_body. run_monad.
    rewrite Ht, He. reflexivity.
Qed.

(** C9 at the failing input.  The profile path names nothing on disk, and
    its last part is too long for the file system, so that
    [Path(profile_path).exists()] raises [OSError] inside the [try] of the
    strategy: [firefox_scrape], [chrome_scrape] and [playwright_scrape]
    return [(None, None)] without starting a browser, where the same calls
    without a profile fetch the page.  A missing path for which the test
    answers [False] is treated as no profile. *)
Theorem unreadable_profile_path_fails_strategy :
  let env := Sample.env_of None None (Some Sample.page_main)
               (Some Sample.page_main) (Some Sample.page_main) in
  let u := "https://example.com" in
  let long := "/tmp/" ++ string_of_list_ascii (repeat "x"%char 300) in
  path_exists env long = None
  /\ fst (firefox_scrape env u (Some long) true initial_world) = Ok (None, None)
  /\ calls (snd (firefox_scrape env u (Some long) true initial_world))
     = [Enter Firefox]
  /\ fst (firefox_scrape env u None true initial_world)
     = Ok (Some "Hello", Some "firefox")
  /\ fst (chrome_scrape env u (Some long) true initial_world) = Ok (None, None)
  /\ fst (chrome_scrape env u None true initial_world)
     = Ok (Some "Hello", Some "chrome")
  /\ fst (playwright_scrape env u (Some long) true initial_world)
     = Ok (None, None)
  /\ fst (playwright_scrape env u None true initial_world)
     = Ok (Some "Hello", Some "playwright")
  /\ firefox_scrape env u (Some "/profiles/gone") true initial_world
     = firefox_scrape env u None true initial_world.
Proof.
  vm_compute. repeat split.
Qed.

(** With a profile directory that exists, the driver is started with it. *)
Example existing_profile_is_used :
  let env := Sample.env_of None None None (Some Sample.page_main) None in
  fst (firefox_options env (Some "/profiles/ok") initial_world)
  = Ok {| arguments := ["--headless"; "--window-size=1920,1080"; "-profile";
                        "/profiles/ok"];
          experimental := [] |}
  /\ fst (chrome_options env (Some "/profiles/ok") initial_world)
     = Ok {| arguments := ["--headless=new"; "--no-sandbox";
                           "--disable-dev-shm-usage"; "--disable-gpu";
                           "--window-size=1920,1080"; "--log-level=3";
                           "--user-data-dir=/profiles/ok"];
             experimental := [("excludeSwitches", ["enable-logging"])] |}.
Proof. vm_compute. split; reflexivity. Qed.

(* ===================================================================== *)
(** ** Console output *)
(* ===================================================================== *)

Lemma orchestrator_returns env u b pp fp cp w :
  exists r w', scrape_url_orchestrator env u b pp fp cp w = (Ok r, w').
Proof.
  unfold scrape_url_orchestrator. destruct (invalid_url u).
  - eexists _, _. reflexivity.
  - apply run_attempts_returns.
Qed.

Lemma slice_to_length n s :
  n <= String.length s -> String.length (slice_to n s) = n.
Proof.
  unfold slice_to. revert s. induction n as [|n IH]; intros s H.
  - destruct s; reflexivity.
  - destruct s as [|c s]; simpl in *; [lia|]. rewrite IH; lia.
Qed.

Lemma slice_to_prefix n s : String.prefix (slice_to n s) s = true.
Proof.
  unfold slice_to. revert s. induction n as [|n IH]; intros s.
  - destruct s; reflexivity.
  - destruct s as [|c s]; simpl; [reflexivity|].
    destruct (Ascii.ascii_dec c c); [apply IH | congruence].
Qed.

(** What the run prints when no output file is asked for. *)
Lemma handle_output_console env a out w :
  truthy_opt (a_output_file a) = false ->
  handle_output env a out w = print_to_console out w.
Proof. intros H. unfold handle_output. now rewrite H. Qed.

Lemma print_to_console_spec out w :
  fst (print_to_console out w) = Ok tt
  /\ console (snd (print_to_console out w)) =
     (console w
      ++ [output_header]
      ++ (if (max_console_len <? String.length out)%nat
          then [slice_to max_console_len out; truncation_notice out]
          else [out])
      ++ [output_footer])%list.
Proof.
  unfold print_to_console, print.
  destruct (max_console_len <? String.length out)%nat;
    run_monad; split; try reflexivity;
    rewrite <- ?app_assoc; reflexivity.
Qed.

Lemma str_of_nat_reads_back n :
  option_map Nat.of_uint (NilEmpty.uint_of_string (str_of_nat n)) = Some n.
Proof.
  unfold str_of_nat. rewrite NilEmpty.usu. simpl.
  now rewrite DecimalNat.Unsigned.of_to.
Qed.

(** C10.  Without an output file, [main] prints a header, the output and a
    footer.  An output of more than 10000 characters is replaced by its
    first 10000 characters, followed by the notice
    [... [Output truncated for console display, full content length: N
    characters]] on a line of its own, where [N] is the length of the whole
    output in decimal; a shorter output is printed whole. *)
Theorem console_output_truncated env a w :
  truthy_opt (a_output_file a) = false ->
  exists r w1,
    scrape_url_orchestrator env (a_url a) (negb (a_raw a) && bs4_available env)
      (a_playwright_profile a) (a_firefox_profile a) (a_chrome_profile a) w
    = (Ok r, w1)
    /\ let out := render env a r in
       (max_console_len < String.length out ->
        console (snd (main env a w)) =
          (console w1
           ++ [(NL ++ "--- Output ---")%string;
               slice_to max_console_len out;
               (NL ++ "... [Output truncated for console display, full content length: "
                ++ str_of_nat (String.length out) ++ " characters]")%string;
               "--- End Output ---"%string])%list
        /\ String.length (slice_to max_console_len out) = max_console_len
        /\ String.prefix (slice_to max_console_len out) out = true
        /\ option_map Nat.of_uint
             (NilEmpty.uint_of_string (str_of_nat (String.length out)))
           = Some (String.length out))
       /\ (String.length out <= max_console_len ->
           console (snd (main env a w)) =
             (console w1
              ++ [(NL ++ "--- Output ---")%string; out;
                  "--- End Output ---"%string])%list)
       /\ max_console_len = 10000.
Proof.
  intros Hfile.
  destruct (orchestrator_returns env (a_url a)
              (negb (a_raw a) && bs4_available env) (a_playwright_profile a)
              (a_firefox_profile a) (a_chrome_profile a) w) as (r & w1 & Hr).
  exists r, w1. split; [exact Hr|]. intros out.
  assert (console (snd (main env a w))
          = console (snd (print_to_console out w1))) as Hmain.
  { unfold main. unfold bind at 1. rewrite Hr. unfold bind.
    rewrite (handle_output_console _ _ _ _ Hfile). fold out.
    destruct (print_to_console_spec out w1) as [Hok _].
    destruct (print_to_console out w1) as [[[]|e] w2]; simpl in *;
      [|discriminate].
    destruct (content r); reflexivity. }
  rewrite Hmain. destruct (print_to_console_spec out w1) as [_ ->].
  split; [|split].
  - intros Hlong. apply Nat.ltb_lt in Hlong as Hb. rewrite Hb.
    repeat split.
    + apply slice_to_length. lia.
    + apply slice_to_prefix.
    + apply str_of_nat_reads_back.
  - intros Hshort. apply Nat.ltb_ge in Hshort. rewrite Hshort. reflexivity.
  - reflexivity.
Qed.

Lemma console_output_truncated_witness :
  let long := string_of_list_ascii (repeat "a"%char 10001) in
  let env := Sample.env_of (Some long) None None None None in
  let a := {| a_url := "https://example.com"; a_output_file := None;
              a_output_format := Txt; a_raw := true;
              a_playwright_profile := None; a_firefox_profile := None;
              a_chrome_profile := None |} in
  console (snd (main env a initial_world))
  = [(NL ++ "--- Output ---")%string;
     string_of_list_ascii (repeat "a"%char 10000);
     (NL ++ "... [Output truncated for console display, full content length: 10001 characters]")%string;
     "--- End Output ---"%string].
Proof.
  intros long env a.
  destruct (console_output_truncated env a initial_world eq_refl)
    as (r & w1 & Hr & Hlong & _).
  vm_compute in Hr. injection Hr as <- <-.
  destruct Hlong as (Hc & _).
  - apply Nat.ltb_lt. vm_compute. reflexivity.
  - rewrite Hc. vm_compute. reflexivity.
Defined.

(* ===================================================================== *)
(** ** More on the cleaner *)
(* ===================================================================== *)

Lemma ws_last_nl_after_nl z : ws_last_nl (String nl z) <> None.
Proof. simpl. destruct (ws_last_nl z); discriminate. Qed.

(** After the substitution, a line feed is followed by at most one more
    line feed before the next character that is not white space, and that
    one follows at once. *)
Lemma sub_blank_lines_runs_single s a b :
  sub_blank_lines s = a ++ String nl b ->
  ws_last_nl b = None \/ exists r, b = String nl r /\ ws_last_nl r = None.
Proof.
  revert a b. induction s as [s IH] using string_length_ind. intros a b.
  destruct s as [|c r]; [rewrite sub_blank_lines_nil; destruct a; discriminate|].
  rewrite sub_blank_lines_cons.
  destruct (Ascii.eqb c nl) eqn:Hn.
  - apply Ascii.eqb_eq in Hn. subst c.
    destruct (ws_last_nl r) as [r'|] eqn:E.
    + assert (ws_last_nl (sub_blank_lines r') = None) as Hkept
        by (apply sub_blank_lines_head_kept; eapply ws_last_nl_maximal; eassumption).
      destruct a as [|x [|y a]]; simpl; intros H.
      * injection H as H. subst b. right. eexists. split; [reflexivity | exact Hkept].
      * injection H as _ H. subst b. left. exact Hkept.
      * injection H as _ _ H. apply (IH r') in H; [exact H|].
        apply ws_last_nl_shorter in E. simpl. lia.
    + destruct a as [|x a]; simpl; intros H.
      * injection H as H. subst b. left. now apply sub_blank_lines_head_kept.
      * injection H as _ H. apply (IH r) in H; [exact H | simpl; lia].
  - destruct a as [|x a]; simpl; intros H.
    + injection H as H1 _. subst c. rewrite Ascii.eqb_refl in Hn. discriminate.
    + injection H as _ H. apply (IH r) in H; [exact H | simpl; lia].
Qed.

Lemma ws_last_nl_visible r r' :
  ws_last_nl r = Some r' -> visible r' = visible r.
Proof.
  revert r'. induction r as [|d r IH]; simpl; intros r' e; [discriminate|].
  destruct (isspace d); [|discriminate].
  destruct (ws_last_nl r) as [q|] eqn:E.
  - injection e as <-. now apply IH.
  - destruct (Ascii.eqb d nl); [|discriminate]. now injection e as <-.
Qed.

Lemma visible_sub_blank_lines s : visible (sub_blank_lines s) = visible s.
Proof.
  induction s as [s IH] using string_length_ind.
  destruct s as [|c r]; [now rewrite sub_blank_lines_nil|].
  rewrite sub_blank_lines_cons.
  destruct (Ascii.eqb c nl) eqn:Hn.
  - apply Ascii.eqb_eq in Hn. subst c.
    destruct (ws_last_nl r) as [r'|] eqn:E; simpl.
    + rewrite IH by (apply ws_last_nl_shorter in E; simpl; lia).
      now apply ws_last_nl_visible.
    + apply IH. simpl; lia.
  - simpl. rewrite IH by (simpl; lia). reflexivity.
Qed.

Lemma visible_all_space s : all_space s = true -> visible s = EmptyString.
Proof.
  induction s as [|c s IH]; simpl; [reflexivity|].
  intros H. apply andb_prop in H as [-> H]. auto.
Qed.

Lemma visible_lstrip s : visible (lstrip s) = visible s.
Proof.
  induction s as [|c s IH]; simpl; [reflexivity|].
  destruct (isspace c) eqn:E; [exact IH|]. simpl. now rewrite E.
Qed.

Lemma visible_rstrip s : visible (rstrip s) = visible s.
Proof.
  induction s as [|c s IH]; [reflexivity|].
  destruct (all_space s) eqn:Hs.
  - destruct (isspace c) eqn:Hc.
    + rewrite rstrip_all_space by (simpl; now rewrite Hc, Hs).
      simpl. rewrite Hc. now rewrite visible_all_space.
    + rewrite (rstrip_cons_space _ _ Hc Hs). simpl. rewrite Hc.
      now rewrite visible_all_space.
  - rewrite (rstrip_cons _ _ Hs). simpl. now rewrite IH.
Qed.

Lemma length_sub_blank_lines s :
  String.length (sub_blank_lines s) <= String.length s.
Proof.
  induction s as [s IH] using string_length_ind.
  destruct s as [|c r]; [now rewrite sub_blank_lines_nil|].
  rewrite sub_blank_lines_cons.
  destruct (Ascii.eqb c nl).
  - destruct (ws_last_nl r) as [r'|] eqn:E; simpl.
    + apply ws_last_nl_shorter in E.
      assert (String.length (sub_blank_lines r') <= String.length r')
        by (apply IH; simpl; lia).
      lia.
    + assert (String.length (sub_blank_lines r) <= String.length r)
        by (apply IH; simpl; lia).
      lia.
  - simpl. assert (String.length (sub_blank_lines r) <= String.length r)
      by (apply IH; simpl; lia).
    lia.
Qed.

Lemma length_lstrip s : String.length (lstrip s) <= String.length s.
Proof.
  induction s as [|c s IH]; simpl; [lia|].
  destruct (isspace c); simpl; lia.
Qed.

Lemma length_rstrip s : String.length (rstrip s) <= String.length s.
Proof.
  induction s as [|c s IH]; simpl; [lia|].
  destruct (rstrip s); [destruct (isspace c)|]; simpl in *; lia.
Qed.

(** X1.  The text returned for a parsed document has no white space at
    either end: trimming it again changes nothing. *)
Theorem clean_html_trimmed env x s :
  truthy x = true -> bs4_available env = true -> parse env x = Some s ->
  lstrip (clean_html env x) = clean_html env x
  /\ rstrip (clean_html env x) = clean_html env x
  /\ strip (clean_html env x) = clean_html env x.
Proof.
  intros Hx Hb Hp. rewrite (clean_html_parsed _ _ _ Hx Hb Hp).
  unfold collapse. repeat split.
  - unfold strip. now rewrite lstrip_rstrip, lstrip_idem.
  - unfold strip. apply rstrip_idem.
  - apply strip_idem.
Qed.

Lemma clean_html_trimmed_witness :
  let x := "<main>  a <p> b </p>" ++ NL ++ "</main>" in
  clean_html Sample.env_down x = "a" ++ NL ++ "b"
  /\ strip (clean_html Sample.env_down x) = clean_html Sample.env_down x.
Proof.
  intros x. split; [vm_compute; reflexivity|].
  apply (clean_html_trimmed Sample.env_down x (Sample.read_markup x));
    vm_compute; reflexivity.
Defined.

(** X2.  In the text returned for a parsed document, a line feed is
    followed by white space without a line feed, or by exactly one more
    line feed and then white space without a line feed: no blank line
    holds white space, no two blank lines follow each other, and three
    line feeds never stand in a row. *)
Theorem clean_html_single_blank_lines env x s :
  truthy x = true -> bs4_available env = true -> parse env x = Some s ->
  (forall a b, clean_html env x = a ++ String nl b ->
     ws_last_nl b = None \/ exists r, b = String nl r /\ ws_last_nl r = None)
  /\ (forall a b, clean_html env x <> a ++ NL ++ NL ++ NL ++ b).
Proof.
  intros Hx Hb Hp. rewrite (clean_html_parsed _ _ _ Hx Hb Hp).
  unfold collapse. rewrite <- sub_blank_lines_strip.
  split.
  - intros a b. apply sub_blank_lines_runs_single.
  - intros a b H. simpl in H.
    apply sub_blank_lines_runs_single in H as [H | (r & Hr & H)].
    + now apply ws_last_nl_after_nl in H.
    + injection Hr as <-. now apply ws_last_nl_after_nl in H.
Qed.

Lemma clean_html_single_blank_lines_witness :
  let x := "<main>a" ++ NL ++ " " ++ NL ++ NL ++ NL ++ "b</main>" in
  clean_html Sample.env_down x = "a" ++ NL ++ NL ++ "b"
  /\ forall a b, clean_html Sample.env_down x <> a ++ NL ++ NL ++ NL ++ b.
Proof.
  intros x. split; [vm_compute; reflexivity|].
  apply (clean_html_single_blank_lines Sample.env_down x (Sample.read_markup x));
    vm_compute; reflexivity.
Defined.

(** X3.  Collapsing and trimming only ever remove white space: the
    characters of the extracted text that are not white space come out
    unchanged and in order, and the result is never longer. *)
Theorem clean_html_keeps_visible_text env x s :
  truthy x = true -> bs4_available env = true -> parse env x = Some s ->
  visible (clean_html env x) = visible (extract_text s)
  /\ String.length (clean_html env x) <= String.length (extract_text s).
Proof.
  intros Hx Hb Hp. rewrite (clean_html_parsed _ _ _ Hx Hb Hp).
  unfold collapse, strip. split.
  - now rewrite visible_rstrip, visible_lstrip, visible_sub_blank_lines.
  - pose proof (length_rstrip (lstrip (sub_blank_lines (extract_text s)))).
    pose proof (length_lstrip (sub_blank_lines (extract_text s))).
    pose proof (length_sub_blank_lines (extract_text s)). lia.
Qed.

Lemma clean_html_keeps_visible_text_witness :
  let x := "<main>a" ++ NL ++ " " ++ NL ++ NL ++ NL ++ "b c</main>" in
  visible (clean_html Sample.env_down x) = "abc".
Proof.
  intros x.
  rewrite (proj1 (clean_html_keeps_visible_text Sample.env_down x
                    (Sample.read_markup x) eq_refl eq_refl eq_refl)).
  vm_compute. reflexivity.
Defined.

Lemma decompose_node_again names n :
  flat_map (decompose_node names) (decompose_node names n)
  = decompose_node names n.
Proof.
  induction n as [nm attrs cs IH | t | t] using node_induction;
    try reflexivity.
  simpl. destruct (mem nm names) eqn:Hmem; [reflexivity|].
  simpl. rewrite Hmem, app_nil_r. do 2 f_equal.
  induction IH as [|c cs Hc _ IHcs]; [reflexivity|].
  simpl. rewrite flat_map_app, Hc, IHcs. reflexivity.
Qed.

(** X5.  Removing the listed tags a second time removes nothing more. *)
Theorem decompose_all_idempotent names s :
  decompose_all names (decompose_all names s) = decompose_all names s.
Proof.
  unfold decompose_all. induction s as [|n s IH]; [reflexivity|].
  simpl. now rewrite flat_map_app, decompose_node_again, IH.
Qed.

(* ===================================================================== *)
(** ** More on the strategies *)
(* ===================================================================== *)

(** [fast_scrape] without its [try] blocks. *)
Lemma fast_scrape_unfolded env u b w :
  fast_scrape env u b w =
  (Ok match httpx_get env u with
      | Some t =>
          if truthy t then (Some (normalize env b t), Some "httpx")
          else (None, None)
      | None =>
          match cloudscraper_get env u with
          | Some t =>
              if truthy t then (Some (normalize env b t), Some "cloudscraper")
              else (None, None)
          | None => (None, None)
          end
      end,
   {| calls := (calls w ++ [Enter Fast; HttpxGet u]
                ++ match httpx_get env u with
                   | Some _ => []
                   | None => [CloudscraperGet u]
                   end)%list;
      g_playwright := g_playwright w; g_selenium := g_selenium w;
      g_webdriver_manager := g_webdriver_manager w;
      files := files w; console := console w |}).
Proof.
  unfold fast_scrape. run_monad.
  destruct (httpx_get env u) as [t|]; run_monad.
  - destruct (truthy t); rewrite <- app_assoc; reflexivity.
  - destruct (cloudscraper_get env u) as [t|]; run_monad;
      [destruct (truthy t)|]; rewrite <- !app_assoc; reflexivity.
Qed.

(** X8.  A second call of [_ensure_selenium_dependencies] imports nothing
    and changes nothing, whatever is installed by then.  It gives the
    answer of the first call, with one exception: when the first call
    could import [selenium] but not one of its parts, the package is left
    under the module-level name; the first call answers [False] and every
    later call answers [True]. *)
Theorem ensure_selenium_second_call env env' w :
  let first := _ensure_selenium_dependencies env w in
  snd (_ensure_selenium_dependencies env' (snd first)) = snd first
  /\ fst (_ensure_selenium_dependencies env' (snd first))
     = match g_selenium w with
       | SelNone =>
           if negb (selenium_installed env) && selenium_importable env
           then Ok true
           else fst first
       | _ => fst first
       end
  /\ (g_selenium w = SelNone -> selenium_installed env = false ->
      selenium_importable env = true ->
      fst first = Ok false /\ g_selenium (snd first) = SelPackage).
Proof.
  unfold _ensure_selenium_dependencies. run_monad.
  destruct w as [cs pw sel wm fs co]. run_monad.
  destruct sel; run_monad; try (repeat split; reflexivity || discriminate).
  destruct (selenium_installed env), (selenium_importable env); run_monad;
    repeat split; try reflexivity; intros; discriminate.
Qed.

(** X9.  A failed import is remembered.  Once Playwright was looked for
    and not found, every later [playwright_scrape] returns [(None, None)]
    without a browser session, also when the package is there by then;
    likewise [firefox_scrape] and [chrome_scrape] once Selenium was not
    found. *)
Theorem failed_import_remembered env env' u u' p p' b b' w :
  (g_playwright w = PwNone -> playwright_installed env = false ->
   let w1 := snd (playwright_scrape env u p b w) in
   playwright_scrape env' u' p' b' w1
   = (Ok (None, None), snd (record (Enter Playwright) w1)))
  /\ (g_selenium w = SelNone -> selenium_installed env = false ->
      let w1 := snd (firefox_scrape env u p b w) in
      firefox_scrape env' u' p' b' w1
      = (Ok (None, None), snd (record (Enter Firefox) w1))
      /\ chrome_scrape env' u' p' b' w1
         = (Ok (None, None), snd (record (Enter Chrome) w1))).
Proof.
  destruct w as [cs pw sel wm fs co]. split.
  - intros Hg Hi. simpl in Hg. subst pw.
    unfold playwright_scrape. run_monad. rewrite Hi. run_monad. reflexivity.
  - intros Hg Hi. simpl in Hg. subst sel.
    unfold firefox_scrape, chrome_scrape, _ensure_selenium_dependencies,
      selenium_item.
    run_monad. rewrite Hi. run_monad.
    destruct (selenium_importable env); run_monad; split; reflexivity.
Qed.

Lemma failed_import_remembered_witness :
  let env := {| bs4_available := true; parse := fun _ => None;
                httpx_get := fun _ => None; cloudscraper_get := fun _ => None;
                playwright_installed := false;
                playwright_session := fun _ => Some "<p>page</p>";
                selenium_installed := false;
                selenium_importable := false;
                webdriver_manager_installed := false;
                gecko_install := None; chromedriver_install := None;
                firefox_session := fun _ _ _ => Some "<p>page</p>";
                chrome_session := fun _ _ _ => Some "<p>page</p>";
                path_exists := fun _ => Some false; file_write_ok := fun _ => true;
                json_dumps := fun _ => "{}" |} in
  let env' := Sample.env_of None None (Some "<p>page</p>") None None in
  let u := "https://example.com" in
  fst (playwright_scrape env' u None true
         (snd (playwright_scrape env u None true initial_world)))
  = Ok (None, None).
Proof.
  intros env env' u.
  rewrite (proj1 (failed_import_remembered env env' u u None None true true
                    initial_world) eq_refl eq_refl).
  reflexivity.
Defined.

(* ===================================================================== *)
(** ** More on the orchestrator *)
(* ===================================================================== *)

(** What every attempt keeps, the loop keeps; what every returned content
    satisfies, the content of the result satisfies. *)
Lemma run_attempts_inv (R : World -> World -> Prop)
    (Q : string -> option string -> Prop) l r w :
  (forall w, R w w) ->
  (forall a b c, R a b -> R b c -> R a c) ->
  Forall (fun a => forall w,
            R w (snd (snd a w))
            /\ forall c m, fst (snd a w) = Ok (Some c, m) -> Q c m) l ->
  exists r' w',
    run_attempts l r w = (Ok r', w') /\ R w w'
    /\ (r' = set_error r "All scraping methods failed"
        \/ exists c m, r' = update_content r c m /\ Q c m).
Proof.
  intros Hrefl Htrans Hl. revert w.
  induction Hl as [|[name f] l Hf _ IH]; intros w; simpl.
  - eexists _, _. split; [reflexivity|]. split; [apply Hrefl | now left].
  - run_monad. destruct (Hf w) as [HR HQ]. simpl in HR, HQ.
    destruct (f w) as [[[[c|] m]|e] w1]; run_monad.
    + eexists _, _. split; [reflexivity|]. split; [exact HR|].
      right. exists c, m. split; [reflexivity|]. now apply HQ.
    + destruct (IH w1) as (r' & w' & -> & HR' & Hr').
      eexists _, _. split; [reflexivity|]. split; [|exact Hr'].
      eapply Htrans; eassumption.
    + destruct (IH w1) as (r' & w' & -> & HR' & Hr').
      eexists _, _. split; [reflexivity|]. split; [|exact Hr'].
      eapply Htrans; eassumption.
Qed.

Ltac outcome_facts :=
  split;
  [ split; reflexivity
  | let Hret := fresh "Hret" in
    intros ? ? Hret;
    first
      [ discriminate Hret
      | injection Hret as <- <-;
        split;
        [ eexists; split; [reflexivity | unfold method_names; simpl; tauto]
        | intros ->; unfold answered; simpl; eauto 10 ] ] ].

Lemma fast_scrape_facts env u b w :
  (files (snd (fast_scrape env u b w)) = files w
   /\ console (snd (fast_scrape env u b w)) = console w)
  /\ forall c m, fst (fast_scrape env u b w) = Ok (Some c, m) ->
       (exists name, m = Some name /\ In name method_names)
       /\ (b = false -> answered env u c).
Proof.
  unfold fast_scrape. run_monad. split_cases; outcome_facts.
Qed.

Lemma playwright_scrape_facts env u p b w :
  (files (snd (playwright_scrape env u p b w)) = files w
   /\ console (snd (playwright_scrape env u p b w)) = console w)
  /\ forall c m, fst (playwright_scrape env u p b w) = Ok (Some c, m) ->
       (exists name, m = Some name /\ In name method_names)
       /\ (b = false -> answered env u c).
Proof.
  unfold playwright_scrape, playwright_body. run_monad. split_cases; outcome_facts.
Qed.

Lemma firefox_scrape_facts env u p b w :
  (files (snd (firefox_scrape env u p b w)) = files w
   /\ console (snd (firefox_scrape env u p b w)) = console w)
  /\ forall c m, fst (firefox_scrape env u p b w) = Ok (Some c, m) ->
       (exists name, m = Some name /\ In name method_names)
       /\ (b = false -> answered env u c).
Proof.
  unfold firefox_scrape, _ensure_selenium_dependencies, selenium_item,
    service_executable.
  run_monad. split_cases; outcome_facts.
Qed.

Lemma chrome_scrape_facts env u p b w :
  (files (snd (chrome_scrape env u p b w)) = files w
   /\ console (snd (chrome_scrape env u p b w)) = console w)
  /\ forall c m, fst (chrome_scrape env u p b w) = Ok (Some c, m) ->
       (exists name, m = Some name /\ In name method_names)
       /\ (b = false -> answered env u c).
Proof.
  unfold chrome_scrape, _ensure_selenium_dependencies, selenium_item,
    service_executable.
  run_monad. split_cases; outcome_facts.
Qed.

(** The orchestrator, with what its attempts keep and give. *)
Lemma orchestrator_facts env u b pp fp cp w :
  exists r w',
    scrape_url_orchestrator env u b pp fp cp w = (Ok r, w')
    /\ (files w' = files w /\ console w' = console w)
    /\ url r = u /\ beautified r = b
    /\ ((content r = None /\ method r = None
         /\ (error r = Some "Invalid URL schema"
             \/ error r = Some "All scraping methods failed"))
        \/ (exists c name,
              content r = Some c /\ method r = Some name /\ error r = None
              /\ In name method_names /\ (b = false -> answered env u c))).
Proof.
  unfold scrape_url_orchestrator. destruct (invalid_url u).
  - eexists _, _. split; [reflexivity|]. simpl. repeat split. left. auto.
  - destruct (run_attempts_inv
                (fun w w' => files w' = files w /\ console w' = console w)
                (fun c m => (exists name, m = Some name /\ In name method_names)
                            /\ (b = false -> answered env u c))
                (scrape_attempts env u b pp fp cp)
                {| url := u; content := None; method := None;
                   beautified := b; error := None |} w)
      as (r & w' & Hrun & HR & Hr).
    + intros; split; reflexivity.
    + intros a b0 c [H1 H2] [H3 H4]. split; congruence.
    + unfold scrape_attempts.
      apply Forall_cons; [intros w0; apply fast_scrape_facts|].
      apply Forall_cons; [intros w0; apply playwright_scrape_facts|].
      apply Forall_cons; [intros w0; apply firefox_scrape_facts|].
      apply Forall_cons; [intros w0; apply chrome_scrape_facts|].
      apply Forall_nil.
    + exists r, w'. split; [exact Hrun|]. split; [exact HR|].
      destruct Hr as [-> | (c & m & -> & (name & -> & Hname) & Hraw)]; simpl.
      * repeat split. left. auto.
      * repeat split. right. exists c, name. auto.
Qed.

(** X10.  The result of the orchestrator always names the URL and the
    beautify flag it was called with: the flag repeats the request and
    does not say whether the content was in fact cleaned. *)
Theorem orchestrator_result_echoes_request env u b pp fp cp w :
  exists r w',
    scrape_url_orchestrator env u b pp fp cp w = (Ok r, w')
    /\ url r = u /\ beautified r = b.
Proof.
  destruct (orchestrator_facts env u b pp fp cp w)
    as (r & w' & H & _ & Hu & Hb & _).
  exists r, w'. auto.
Qed.

(** The parser raises on every page: the content is the raw markup, and
    the result still says [beautified]. *)
Example beautified_flag_is_the_request :
  let env := {| bs4_available := true; parse := fun _ => None;
                httpx_get := fun _ => Some "<p> raw </p>";
                cloudscraper_get := fun _ => None;
                playwright_installed := false;
                playwright_session := fun _ => None;
                selenium_installed := false;
                selenium_importable := false;
                webdriver_manager_installed := false;
                gecko_install := None; chromedriver_install := None;
                firefox_session := fun _ _ _ => None;
                chrome_session := fun _ _ _ => None;
                path_exists := fun _ => Some false; file_write_ok := fun _ => true;
                json_dumps := fun _ => "{}" |} in
  fst (scrape_url_orchestrator env "https://example.com" true None None None
         initial_world)
  = Ok {| url := "https://example.com"; content := Some "<p> raw </p>";
          method := Some "httpx"; beautified := true; error := None |}.
Proof. vm_compute. reflexivity. Qed.

(** X11.  The method of a result is one of [httpx], [cloudscraper],
    [playwright], [firefox], [chrome] -- never the name of the attempt,
    [fast] -- and an error is one of the two texts [Invalid URL schema]
    and [All scraping methods failed]. *)
Theorem orchestrator_method_and_error_values env u b pp fp cp w :
  exists r w',
    scrape_url_orchestrator env u b pp fp cp w = (Ok r, w')
    /\ (forall name, method r = Some name -> In name method_names)
    /\ method r <> Some "fast"
    /\ (forall e, error r = Some e ->
          e = "Invalid URL schema" \/ e = "All scraping methods failed").
Proof.
  destruct (orchestrator_facts env u b pp fp cp w)
    as (r & w' & H & _ & _ & _ & Hr).
  exists r, w'. split; [exact H|].
  destruct Hr as [(Hc & Hm & He) | (c & name & Hc & Hm & He & Hin & _)].
  - rewrite Hm. repeat split; try discriminate.
    intros e H'. destruct He as [He | He]; rewrite He in H';
      injection H' as <-; auto.
  - rewrite Hm, He. repeat split; try discriminate.
    + intros n [= <-]. exact Hin.
    + intros [= ->]. unfold method_names in Hin. simpl in Hin.
      repeat (destruct Hin as [Hin | Hin]; [discriminate|]). exact Hin.
Qed.

(** X12.  Without cleaning ([beautify] false) the content of the result is,
    character for character, what one of the collaborators answered for
    the URL. *)
Theorem raw_content_is_verbatim env u pp fp cp w :
  exists r w',
    scrape_url_orchestrator env u false pp fp cp w = (Ok r, w')
    /\ forall c, content r = Some c -> answered env u c.
Proof.
  destruct (orchestrator_facts env u false pp fp cp w)
    as (r & w' & H & _ & _ & _ & Hr).
  exists r, w'. split; [exact H|]. intros c Hc.
  destruct Hr as [(Hn & _) | (c' & name & Hc' & _ & _ & _ & Hraw)].
  - congruence.
  - rewrite Hc in Hc'. injection Hc' as <-. now apply Hraw.
Qed.

(* ===================================================================== *)
(** ** More on [main] *)
(* ===================================================================== *)

Lemma handle_output_returns env a out w :
  exists w2,
    handle_output env a out w = (Ok tt, w2)
    /\ calls w2 = calls w
    /\ g_playwright w2 = g_playwright w /\ g_selenium w2 = g_selenium w.
Proof.
  unfold handle_output, print_to_console, write_file, print.
  destruct (truthy_opt (a_output_file a)).
  - destruct (a_output_file a) as [path|]; run_monad.
    + destruct (file_write_ok env path); run_monad;
        eexists; repeat split; reflexivity.
    + eexists; repeat split; reflexivity.
  - destruct (max_console_len <? String.length out)%nat; run_monad;
      eexists; repeat split; reflexivity.
Qed.

Lemma main_unfolded env a w r w1 :
  scrape_url_orchestrator env (a_url a) (negb (a_raw a) && bs4_available env)
    (a_playwright_profile a) (a_firefox_profile a) (a_chrome_profile a) w
  = (Ok r, w1) ->
  main env a w
  = (Ok match content r with Some _ => 0 | None => 1 end,
     snd (handle_output env a (render env a r) w1)).
Proof.
  intros Hr. unfold main. unfold bind at 1. rewrite Hr. unfold bind.
  destruct (handle_output_returns env a (render env a r) w1) as (w2 & -> & _).
  destruct (content r); reflexivity.
Qed.

(** X13.  The status that [main] gives to [sys.exit] is 0 when the result
    has content and 1 when it has none, whatever the output format and the
    output file; a failure to write the output file is caught and does not
    change it.  After the orchestrator has returned, no collaborator is
    called.  (A console that refuses the text is outside the model.) *)
Theorem main_exit_status env a w :
  exists r w1 w2,
    scrape_url_orchestrator env (a_url a) (negb (a_raw a) && bs4_available env)
      (a_playwright_profile a) (a_firefox_profile a) (a_chrome_profile a) w
    = (Ok r, w1)
    /\ main env a w
       = (Ok match content r with Some _ => 0 | None => 1 end, w2)
    /\ calls w2 = calls w1.
Proof.
  destruct (orchestrator_returns env (a_url a)
              (negb (a_raw a) && bs4_available env) (a_playwright_profile a)
              (a_firefox_profile a) (a_chrome_profile a) w) as (r & w1 & Hr).
  exists r, w1, (snd (handle_output env a (render env a r) w1)).
  split; [exact Hr|]. split; [now apply main_unfolded|].
  destruct (handle_output_returns env a (render env a r) w1) as (w2 & -> & Hc & _).
  exact Hc.
Qed.




(** X15.  In the text format an empty page is not shown as content: the
    output is the failure message, naming the method that fetched the
    page and the error detail [Unknown error], while the exit status is
    0. *)
Theorem empty_page_reported_as_failure env a w r w1 :
  a_output_format a = Txt ->
  scrape_url_orchestrator env (a_url a) (negb (a_raw a) && bs4_available env)
    (a_playwright_profile a) (a_firefox_profile a) (a_chrome_profile a) w
  = (Ok r, w1) ->
  content r = Some EmptyString ->
  fst (main env a w) = Ok 0
  /\ exists name,
       In name method_names
       /\ render env a r
          = "Error: Failed to scrape URL: " ++ a_url a ++ NL
            ++ "Method attempted last: " ++ name ++ NL
            ++ "Error details: Unknown error".
Proof.
  intros Hfmt Hr Hc. split.
  - rewrite (main_unfolded _ _ _ _ _ Hr), Hc. reflexivity.
  - destruct (orchestrator_facts env (a_url a)
                (negb (a_raw a) && bs4_available env) (a_playwright_profile a)
                (a_firefox_profile a) (a_chrome_profile a) w)
      as (r' & w' & H & _ & _ & _ & Hshape).
    rewrite Hr in H. injection H as <- <-.
    destruct Hshape as [(Hn & _) | (c & name & _ & Hm & He & Hin & _)];
      [congruence|].
    exists name. split; [exact Hin|].
    unfold render, get_error, str_or. rewrite Hfmt, Hc, Hm, He. simpl.
    unfold method_names in Hin. simpl in Hin.
    repeat (destruct Hin as [<- | Hin]; [reflexivity|]). contradiction.
Qed.

Lemma empty_page_reported_as_failure_witness :
  let env := Sample.env_of None None (Some EmptyString) None None in
  let a := {| a_url := "https://example.com"; a_output_file := None;
              a_output_format := Txt; a_raw := true;
              a_playwright_profile := None; a_firefox_profile := None;
              a_chrome_profile := None |} in
  fst (main env a initial_world) = Ok 0.
Proof.
  intros env a.
  refine (proj1 (empty_page_reported_as_failure env a initial_world
                   {| url := "https://example.com"; content := Some EmptyString;
                      method := Some "playwright"; beautified := false;
                      error := None |}
                   (snd (scrape_url_orchestrator env (a_url a) false None None
                           None initial_world))
                   eq_refl _ eq_refl)).
  vm_compute. reflexivity.
Defined.

(* ===================================================================== *)
(** ** The program run as a script *)
(* ===================================================================== *)

Lemma playwright_scrape_no_browser env u p b w :
  no_browser env w ->
  exists w',
    playwright_scrape env u p b w = (Ok (None, None), w')
    /\ calls w' = (calls w ++ [Enter Playwright])%list
    /\ no_browser env w'.
Proof.
  destruct w as [cs pw sel wm fs co]. unfold no_browser. simpl.
  intros [Hpw Hsel]. unfold playwright_scrape, playwright_body. run_monad.
  destruct Hpw as [-> | [-> | [-> Hi]]]; run_monad; try rewrite Hi; run_monad;
    eexists; (split; [reflexivity|]); (split; [reflexivity|]);
    unfold no_browser; simpl; auto.
Qed.

Lemma firefox_scrape_no_browser env u p b w :
  no_browser env w ->
  exists w',
    firefox_scrape env u p b w = (Ok (None, None), w')
    /\ calls w' = (calls w ++ [Enter Firefox])%list
    /\ no_browser env w'.
Proof.
  destruct w as [cs pw sel wm fs co]. unfold no_browser. simpl.
  intros [Hpw Hsel].
  unfold firefox_scrape, _ensure_selenium_dependencies, selenium_item.
  run_monad.
  destruct Hsel as [-> | [-> | [-> Hi]]]; run_monad; try rewrite Hi; run_monad;
    try (destruct (selenium_importable env); run_monad);
    eexists; (split; [reflexivity|]); (split; [reflexivity|]);
    unfold no_browser; simpl; auto.
Qed.

Lemma chrome_scrape_no_browser env u p b w :
  no_browser env w ->
  exists w',
    chrome_scrape env u p b w = (Ok (None, None), w')
    /\ calls w' = (calls w ++ [Enter Chrome])%list
    /\ no_browser env w'.
Proof.
  destruct w as [cs pw sel wm fs co]. unfold no_browser. simpl.
  intros [Hpw Hsel].
  unfold chrome_scrape, _ensure_selenium_dependencies, selenium_item.
  run_monad.
  destruct Hsel as [-> | [-> | [-> Hi]]]; run_monad; try rewrite Hi; run_monad;
    try (destruct (selenium_importable env); run_monad);
    eexists; (split; [reflexivity|]); (split; [reflexivity|]);
    unfold no_browser; simpl; auto.
Qed.

Lemma no_browser_calls_app l1 l2 :
  forallb (fun c => negb (browser_call c)) (l1 ++ l2)
  = forallb (fun c => negb (browser_call c)) l1
    && forallb (fun c => negb (browser_call c)) l2.
Proof. apply forallb_app. Qed.

(** When the module-level names cannot give a browser, the orchestrator
    stands or falls with [fast_scrape]. *)
Lemma orchestrator_no_browser env u b pp fp cp w :
  no_browser env w -> invalid_url u = false ->
  exists r w' new,
    scrape_url_orchestrator env u b pp fp cp w = (Ok r, w')
    /\ calls w' = (calls w ++ new)%list
    /\ forallb (fun c => negb (browser_call c)) new = true
    /\ (content r <> None <->
        exists c m, fst (fast_scrape env u b w) = Ok (Some c, m)).
Proof.
  intros Hnb Hu. unfold scrape_url_orchestrator. rewrite Hu.
  unfold scrape_attempts. cbn [run_attempts]. run_monad.
  rewrite (fast_scrape_unfolded env u b w).
  set (w1 := {| calls := _ |}).
  assert (no_browser env w1) as Hnb1 by exact Hnb.
  set (o := match httpx_get env u with Some _ => _ | None => _ end).
  assert (forallb (fun c => negb (browser_call c))
            ([Enter Fast; HttpxGet u]
             ++ match httpx_get env u with
                | Some _ => []
                | None => [CloudscraperGet u]
                end) = true) as Hfast
    by (destruct (httpx_get env u); reflexivity).
  destruct o as [[c|] m] eqn:Ho; run_monad.
  - eexists _, _, _. split; [reflexivity|]. split; [reflexivity|].
    split; [exact Hfast|]. simpl. split; [eauto | discriminate].
  - destruct (playwright_scrape_no_browser env u pp b w1 Hnb1)
      as (w2 & -> & Hc2 & Hnb2).
    destruct (firefox_scrape_no_browser env u fp b w2 Hnb2)
      as (w3 & -> & Hc3 & Hnb3).
    destruct (chrome_scrape_no_browser env u cp b w3 Hnb3)
      as (w4 & -> & Hc4 & Hnb4).
    run_monad.
    eexists _, _, _. split; [reflexivity|].
    split.
    + rewrite Hc4, Hc3, Hc2. unfold w1. simpl.
      rewrite <- !app_assoc. reflexivity.
    + split.
      * rewrite !no_browser_calls_app. rewrite no_browser_calls_app in Hfast.
        apply andb_prop in Hfast as [Hf1 Hf2]. simpl in Hf1 |- *.
        rewrite Hf2. reflexivity.
      * simpl. split; [congruence|]. intros (c & m' & H). discriminate.
Qed.

Lemma import_hints_no_browser env :
  exists w0,
    import_hints env initial_world = (Ok tt, w0)
    /\ calls w0 = [] /\ no_browser env w0.
Proof.
  unfold import_hints, no_browser. run_monad.
  destruct (playwright_installed env) eqn:Hp;
    destruct (selenium_installed env) eqn:Hs;
    destruct (selenium_importable env) eqn:Hsi;
    destruct (webdriver_manager_installed env); run_monad;
    eexists; (split; [reflexivity|]); simpl; auto 10.
Qed.

(** X16.  Run as a script, the program never reaches a browser or a driver
    manager, whatever is installed: the [import] lines of the script block
    leave the packages themselves under the names that the strategy
    functions call or index.  The exit status is 0 exactly when the URL is
    accepted and [fast_scrape] returns content. *)
Theorem script_never_starts_browser env a :
  exists status w',
    script env a initial_world = (Ok status, w')
    /\ forallb (fun c => negb (browser_call c)) (calls w') = true
    /\ (status = 0 <->
        invalid_url (a_url a) = false
        /\ exists c m,
             fst (fast_scrape env (a_url a)
                    (negb (a_raw a) && bs4_available env) initial_world)
             = Ok (Some c, m)).
Proof.
  destruct (import_hints_no_browser env) as (w0 & Hh & Hc0 & Hnb).
  unfold script. unfold bind. rewrite Hh.
  destruct (invalid_url (a_url a)) eqn:Hu.
  - assert (scrape_url_orchestrator env (a_url a)
              (negb (a_raw a) && bs4_available env) (a_playwright_profile a)
              (a_firefox_profile a) (a_chrome_profile a) w0
            = (Ok {| url := a_url a; content := None; method := None;
                     beautified := negb (a_raw a) && bs4_available env;
                     error := Some "Invalid URL schema" |}, w0)) as Hr
      by (unfold scrape_url_orchestrator; now rewrite Hu).
    rewrite (main_unfolded _ _ _ _ _ Hr). simpl content.
    eexists _, _. split; [reflexivity|].
    destruct (handle_output_returns env a
                (render env a {| url := a_url a; content := None;
                                 method := None;
                                 beautified := negb (a_raw a) && bs4_available env;
                                 error := Some "Invalid URL schema" |}) w0)
      as (w2 & -> & Hc & _).
    simpl. rewrite Hc, Hc0. split; [reflexivity|].
    split; [discriminate | intros [H _]; discriminate].
  - destruct (orchestrator_no_browser env (a_url a)
                (negb (a_raw a) && bs4_available env) (a_playwright_profile a)
                (a_firefox_profile a) (a_chrome_profile a) w0 Hnb Hu)
      as (r & w1 & new & Hr & Hc1 & Hnew & Hiff).
    rewrite (main_unfolded _ _ _ _ _ Hr).
    eexists _, _. split; [reflexivity|].
    destruct (handle_output_returns env a (render env a r) w1)
      as (w2 & -> & Hc & _).
    simpl. rewrite Hc, Hc1, Hc0. simpl. split; [exact Hnew|].
    rewrite !fast_scrape_unfolded in *. simpl in *.
    destruct (content r).
    + split; [intros _; split; [reflexivity|]; apply Hiff; discriminate
             | reflexivity].
    + split; [discriminate|]. intros [_ H]. apply Hiff in H. congruence.
Qed.

(** The same page, fetched through the orchestrator called as a library
    and through the script. *)
Example library_call_and_script_differ :
  let env := Sample.env_of None None (Some Sample.page_main) None None in
  let a := {| a_url := "https://example.com"; a_output_file := None;
              a_output_format := Txt; a_raw := false;
              a_playwright_profile := None; a_firefox_profile := None;
              a_chrome_profile := None |} in
  fst (main env a initial_world) = Ok 0
  /\ fst (script env a initial_world) = Ok 1
  /\ entered (snd (script env a initial_world))
     = [Fast; Playwright; Firefox; Chrome].
Proof. vm_compute. repeat split. Qed.

(* ===================================================================== *)
(** ** Profiles that exist *)
(* ===================================================================== *)

(** X17.  A profile directory that is given and exists reaches the driver:
    when Selenium can be used, [firefox_scrape] starts Firefox with the
    arguments [-profile] and the path after the two fixed ones, and
    [chrome_scrape] starts Chrome with [--user-data-dir=] and the path
    after the six fixed ones. *)
Theorem existing_profile_reaches_driver env u p b w :
  truthy p = true -> path_exists env p = Some true -> selenium_ready env w ->
  (exists exe,
     In (FirefoxSession exe
           {| arguments := ["--headless"; "--window-size=1920,1080";
                            "-profile"; p];
              experimental := [] |} u)
        (calls (snd (firefox_scrape env u (Some p) b w))))
  /\ (exists exe,
        In (ChromeSession exe
              {| arguments := ["--headless=new"; "--no-sandbox";
                               "--disable-dev-shm-usage"; "--disable-gpu";
                               "--window-size=1920,1080"; "--log-level=3";
                               "--user-data-dir=" ++ p];
                 experimental := [("excludeSwitches", ["enable-logging"])] |} u)
           (calls (snd (chrome_scrape env u (Some p) b w)))).
Proof.
  intros Ht He Hready.
  destruct w as [cs pw sel wm fs co].
  unfold firefox_scrape, chrome_scrape.
  unfold _ensure_selenium_dependencies, selenium_item, service_executable.
  destruct Hready as [[Hs Hi] | [Hs [m Hm]]]; simpl in *; subst.
  - run_monad. rewrite Hi, Ht, He. cbn [orb]. run_monad.
    split; split_cases; eexists; rewrite ?in_app_iff; simpl; eauto 10.
  - run_monad. rewrite Ht, He. run_monad.
    split; split_cases; eexists; rewrite ?in_app_iff; simpl; eauto 10.
Qed.

Lemma existing_profile_reaches_driver_witness :
  let env := Sample.env_of None None None (Some Sample.page_main) None in
  In (FirefoxSession (Some "/drivers/geckodriver")
        {| arguments := ["--headless"; "--window-size=1920,1080";
                         "-profile"; "/profiles/ok"];
           experimental := [] |} "https://example.com")
     (calls (snd (firefox_scrape env "https://example.com"
                    (Some "/profiles/ok") true initial_world))).
Proof.
  intros env.
  destruct (proj1 (existing_profile_reaches_driver env "https://example.com"
                     "/profiles/ok" true initial_world eq_refl eq_refl
                     (or_introl (conj eq_refl eq_refl)))) as [exe H].
  vm_compute. vm_compute in H. tauto.
Defined.

(* ===================================================================== *)
(** ** [create_firefox_profile.py] *)
(* ===================================================================== *)

(** X18.  [get_firefox_binary]: on Windows and macOS a path is returned
    only if it exists on disk, and it is one of the two candidates; on
    Linux the answer of [which firefox], trimmed, is returned without
    looking further, and [firefox-esr] is asked only when [which firefox]
    fails; on any other system the answer is [None]. *)
Theorem get_firefox_binary_spec (h : FirefoxProfile.Host) :
  (forall p, FirefoxProfile.system h <> "Linux" ->
     FirefoxProfile.get_firefox_binary h = Ok (Some p) ->
     FirefoxProfile.os_path_exists h p = true
     /\ ((FirefoxProfile.system h = "Windows"
          /\ In p (FirefoxProfile.windows_paths h))
         \/ (FirefoxProfile.system h = "Darwin"
             /\ exists login, FirefoxProfile.getlogin h = Some login
                              /\ In p (FirefoxProfile.darwin_paths login))))
  /\ (FirefoxProfile.system h = "Linux" ->
      forall out, FirefoxProfile.which h "firefox" = FirefoxProfile.Output out ->
        FirefoxProfile.get_firefox_binary h = Ok (Some (strip out)))
  /\ (FirefoxProfile.system h = "Linux" ->
      FirefoxProfile.which h "firefox" = FirefoxProfile.CalledProcessError ->
      FirefoxProfile.get_firefox_binary h
      = match FirefoxProfile.which h "firefox-esr" with
        | FirefoxProfile.Output out => Ok (Some (strip out))
        | FirefoxProfile.CalledProcessError => Ok None
        | FirefoxProfile.OtherError => Raise OSError
        end)
  /\ (FirefoxProfile.system h <> "Windows" ->
      FirefoxProfile.system h <> "Darwin" ->
      FirefoxProfile.system h <> "Linux" ->
      FirefoxProfile.get_firefox_binary h = Ok None).
Proof.
  unfold FirefoxProfile.get_firefox_binary, FirefoxProfile.first_existing.
  split; [|split; [|split]].
  - intros p Hnl Heq.
    destruct (String.eqb_spec (FirefoxProfile.system h) "Windows") as [e|_].
    + assert (List.find (FirefoxProfile.os_path_exists h)
                (FirefoxProfile.windows_paths h) = Some p) as Hf by congruence.
      apply find_some in Hf as [Hin Hex].
      split; [exact Hex | left; auto].
    + destruct (String.eqb_spec (FirefoxProfile.system h) "Darwin") as [e|_].
      * destruct (FirefoxProfile.getlogin h) as [login|]; [|discriminate].
        assert (List.find (FirefoxProfile.os_path_exists h)
                  (FirefoxProfile.darwin_paths login) = Some p) as Hf
          by congruence.
        apply find_some in Hf as [Hin Hex].
        split; [exact Hex | right; eauto].
      * destruct (String.eqb_spec (FirefoxProfile.system h) "Linux");
          [contradiction | discriminate].
  - intros Hs out Hw. rewrite Hs, Hw. reflexivity.
  - intros Hs Hw. rewrite Hs, Hw. reflexivity.
  - intros H1 H2 H3.
    destruct (String.eqb_spec (FirefoxProfile.system h) "Windows");
      [contradiction|].
    destruct (String.eqb_spec (FirefoxProfile.system h) "Darwin");
      [contradiction|].
    destruct (String.eqb_spec (FirefoxProfile.system h) "Linux");
      [contradiction | reflexivity].
Qed.


Example firefox_esr_is_second_choice :
  let h := {| FirefoxProfile.system := "Linux";
              FirefoxProfile.environ := fun _ => None;
              FirefoxProfile.path_join := fun l => PyStr.join "/" l;
              FirefoxProfile.os_path_exists := fun _ => false;
              FirefoxProfile.getlogin := None;
              FirefoxProfile.which := fun name =>
                if String.eqb name "firefox-esr"
                then FirefoxProfile.Output ("/usr/bin/firefox-esr" ++ NL)
                else FirefoxProfile.CalledProcessError;
              FirefoxProfile.script_dir := "/home/u/scraper";
              FirefoxProfile.makedirs_ok := fun _ => true;
              FirefoxProfile.launch := fun _ => None |} in
  FirefoxProfile.get_firefox_binary h = Ok (Some "/usr/bin/firefox-esr")
  /\ FirefoxProfile.made (snd (FirefoxProfile.setup_firefox_profile h))
     = ["/home/u/scraper/Firefox-Profile"]
  /\ FirefoxProfile.launched (snd (FirefoxProfile.setup_firefox_profile h))
     = [["/usr/bin/firefox-esr"; "--new-instance"; "--profile";
         "/home/u/scraper/Firefox-Profile"; "--no-remote";
         "https://www.google.com"]].
Proof. vm_compute. repeat split. Qed.

(* ===================================================================== *)
(** ** The order of a run *)
(* ===================================================================== *)

Lemma run_attempts_enters_prefix ids l r w :
  Forall2 enters ids l ->
  exists r' w' k,
    run_attempts l r w = (Ok r', w')
    /\ k <= List.length ids
    /\ entered w' = (entered w ++ firstn k ids)%list.
Proof.
  intros H. revert w. induction H as [|s [name f] ids l Hs _ IH]; intros w.
  - exists (set_error r "All scraping methods failed"), w, 0.
    simpl. rewrite app_nil_r. repeat split; lia.
  - simpl. run_monad. specialize (Hs w). simpl in Hs.
    destruct (f w) as [[[[c|] m]|e] w1]; simpl in Hs; run_monad.
    + exists (update_content r c m), w1, 1. simpl.
      repeat split; [lia | exact Hs].
    + destruct (IH w1) as (r' & w' & k & -> & Hk & He).
      exists r', w', (S k). simpl. repeat split; [lia|].
      now rewrite He, Hs, <- app_assoc.
    + destruct (IH w1) as (r' & w' & k & -> & Hk & He).
      exists r', w', (S k). simpl. repeat split; [lia|].
      now rewrite He, Hs, <- app_assoc.
Qed.

(** X20.  In every run the strategies entered are a beginning of the
    cascade [fast], [playwright], [firefox], [chrome]: none is entered
    twice, none out of turn, none after a later one. *)
Theorem orchestrator_enters_cascade_prefix env u b pp fp cp w :
  exists r w' k,
    scrape_url_orchestrator env u b pp fp cp w = (Ok r, w')
    /\ k <= 4
    /\ entered w' = (entered w ++ firstn k cascade_order)%list.
Proof.
  unfold scrape_url_orchestrator. destruct (invalid_url u).
  - eexists _, w, 0. simpl. rewrite app_nil_r. repeat split. lia.
  - apply (run_attempts_enters_prefix cascade_order).
    apply scrape_attempts_enter.
Qed.

(** X21.  When BeautifulSoup is missing, [main] calls the orchestrator
    without cleaning, also when cleaning was asked for: the result says
    [beautified] false and its content is what a collaborator answered,
    unchanged. *)
Theorem main_without_bs4_is_raw env a w :
  bs4_available env = false ->
  exists r w1 w2 status,
    scrape_url_orchestrator env (a_url a) false (a_playwright_profile a)
      (a_firefox_profile a) (a_chrome_profile a) w = (Ok r, w1)
    /\ main env a w = (Ok status, w2)
    /\ w2 = snd (handle_output env a (render env a r) w1)
    /\ beautified r = false
    /\ forall c, content r = Some c -> answered env (a_url a) c.
Proof.
  intros Hb.
  destruct (orchestrator_facts env (a_url a) false (a_playwright_profile a)
              (a_firefox_profile a) (a_chrome_profile a) w)
    as (r & w1 & Hr & _ & _ & Hbeaut & Hshape).
  exists r, w1. eexists _, _. split; [exact Hr|]. split.
  - apply main_unfolded. rewrite Hb, andb_false_r. exact Hr.
  - split; [reflexivity|]. split; [exact Hbeaut|].
    intros c Hc.
    destruct Hshape as [(Hn & _) | (c' & name & Hc' & _ & _ & _ & Hraw)];
      [congruence|].
    rewrite Hc in Hc'. injection Hc' as <-. now apply Hraw.
Qed.

Lemma main_without_bs4_is_raw_witness :
  let env := {| bs4_available := false; parse := fun _ => None;
                httpx_get := fun _ => Some "<p> raw </p>";
                cloudscraper_get := fun _ => None;
                playwright_installed := false;
                playwright_session := fun _ => None;
                selenium_installed := false;
                selenium_importable := false;
                webdriver_manager_installed := false;
                gecko_install := None; chromedriver_install := None;
                firefox_session := fun _ _ _ => None;
                chrome_session := fun _ _ _ => None;
                path_exists := fun _ => Some false; file_write_ok := fun _ => true;
                json_dumps := fun _ => "{}" |} in
  let a := {| a_url := "https://example.com"; a_output_file := None;
              a_output_format := Txt; a_raw := false;
              a_playwright_profile := None; a_firefox_profile := None;
              a_chrome_profile := None |} in
  console (snd (main env a initial_world))
  = [output_header; "<p> raw </p>"; output_footer].
Proof.
  intros env a.
  destruct (main_without_bs4_is_raw env a initial_world eq_refl)
    as (r & w1 & w2 & status & Hr & Hm & Hw & _).
  rewrite Hm. simpl snd. subst w2.
  vm_compute in Hr. injection Hr as <- <-. vm_compute. reflexivity.
Defined.
